(** * Heuristic JSON-tree extraction engine of the restaurant scraper

    A shallow embedding of the extraction core of
    [src/extractors/restaurant_parser.py], [src/extractors/utils_location.py]
    and [src/extractors/menu_parser.py], and the properties the
    specification states about it.

    Modelling conventions.
    - A payload is the Python value [json.loads] returns: [None], [bool],
      [int] (unbounded, [Z]), [float] (IEEE binary64, [spec_float] at
      precision 53), [str], [list], [dict].
    - A [dict] is an association list in insertion order; [dict.get] and
      [in] look at the first binding of a key, [dict.values()] enumerates the
      bindings in order.  A dictionary built by [json.loads] has pairwise
      distinct keys; every statement below holds for all association lists.
    - A [str] is held as its UTF-8 bytes; [str.isdigit], [str.upper],
      [str.strip], [float] and the regular expressions of [strptime] work on
      its code points, with the character tables of the Unicode database.
    - Python's [None] is [JNull]: the code does not distinguish an absent
      result from a JSON [null].
    - Exceptions are explicit: a function that can raise returns a
      [result]. *)

From Stdlib Require Import ZArith String Ascii List Bool Lia.
From Stdlib Require Import Floats.SpecFloat.
Import ListNotations.

Local Open Scope string_scope.
Local Open Scope Z_scope.

(** ** JSON values *)

#[local] Unset Elimination Schemes.
Inductive value : Type :=
| JNull
| JBool (b : bool)
| JInt (z : Z)
| JFloat (f : spec_float)
| JStr (s : string)
| JArr (items : list value)
| JObj (fields : list (string * value)).
#[local] Set Elimination Schemes.

Definition dict : Type := list (string * value).

(** Induction over the tree, with the hypotheses for the elements of an
    array and the values of an object. *)
Section ValueInd.
Variable P : value -> Prop.
Hypothesis Hnull : P JNull.
Hypothesis Hbool : forall b, P (JBool b).
Hypothesis Hint : forall z, P (JInt z).
Hypothesis Hfloat : forall f, P (JFloat f).
Hypothesis Hstr : forall s, P (JStr s).
Hypothesis Harr : forall items, Forall P items -> P (JArr items).
Hypothesis Hobj :
  forall fields, Forall (fun kv => P (snd kv)) fields -> P (JObj fields).

Fixpoint value_tree_ind (v : value) : P v :=
  match v with
  | JNull => Hnull
  | JBool b => Hbool b
  | JInt z => Hint z
  | JFloat f => Hfloat f
  | JStr s => Hstr s
  | JArr items =>
      Harr items
        ((fix go (l : list value) : Forall P l :=
            match l with
            | [] => Forall_nil P
            | x :: tl => Forall_cons x (value_tree_ind x) (go tl)
            end) items)
  | JObj fields =>
      Hobj fields
        ((fix go (l : dict) : Forall (fun kv => P (snd kv)) l :=
            match l with
            | [] => Forall_nil _
            | kv :: tl =>
                Forall_cons (P := fun kv => P (snd kv)) kv
                  (value_tree_ind (snd kv)) (go tl)
            end) fields)
  end.
End ValueInd.

(** ** Python primitives on values *)

(** [x is None] *)
Definition is_none (v : value) : bool :=
  match v with JNull => true | _ => false end.

(** Truth value of an object ([bool(x)]). *)
Definition truthy (v : value) : bool :=
  match v with
  | JNull => false
  | JBool b => b
  | JInt z => negb (z =? 0)%Z
  | JFloat (S754_zero _) => false
  | JFloat _ => true
  | JStr s => negb (s =? "")%string
  | JArr items => match items with [] => false | _ => true end
  | JObj fields => match fields with [] => false | _ => true end
  end.

(** [a or b] *)
Definition py_or (a b : value) : value := if truthy a then a else b.

(** [isinstance(x, str)], [isinstance(x, dict)], [isinstance(x, list)] *)
Definition is_str (v : value) : bool :=
  match v with JStr _ => true | _ => false end.
Definition is_dict (v : value) : bool :=
  match v with JObj _ => true | _ => false end.
Definition is_list (v : value) : bool :=
  match v with JArr _ => true | _ => false end.

(** [isinstance(x, (int, float))]: [bool] is a subclass of [int]. *)
Definition is_int_or_float (v : value) : bool :=
  match v with JBool _ | JInt _ | JFloat _ => true | _ => false end.

(** A number in the sense of the JSON data model (boolean excluded). *)
Definition is_json_number (v : value) : bool :=
  match v with JInt _ | JFloat _ => true | _ => false end.

(** [d[k]] when present *)
Fixpoint lookup (k : string) (d : dict) : option value :=
  match d with
  | [] => None
  | (k', v) :: tl => if (k' =? k)%string then Some v else lookup k tl
  end.

(** [k in d] *)
Definition has_key (k : string) (d : dict) : bool :=
  match lookup k d with Some _ => true | None => false end.

(** [d.get(k)] *)
Definition get (k : string) (d : dict) : value :=
  match lookup k d with Some v => v | None => JNull end.

(** [any(key in d for key in keys)] *)
Definition has_any (keys : list string) (d : dict) : bool :=
  existsb (fun k => has_key k d) keys.

(** ** Loops of the tree walkers *)

Section Loops.
Context {B : Type}.

(** [for b in l: found = g(b); if found is not None: return found]
    followed by [return None]. *)
Variable g : B -> value.

Fixpoint first_not_none (l : list B) : value :=
  match l with
  | [] => JNull
  | b :: tl =>
      let found := g b in
      if is_none found then first_not_none tl else found
  end.
End Loops.

(** ** Key-Match Resolver ([restaurant_parser.py], [_find_first_value]) *)

(** [for k in keys: if k in n: return n[k]] *)
Fixpoint first_present (keys : list string) (n : dict) : option value :=
  match keys with
  | [] => None
  | k :: ks =>
      match lookup k n with
      | Some v => Some v
      | None => first_present ks n
      end
  end.

Fixpoint find_first_walk (keys : list string) (n : value) : value :=
  match n with
  | JObj fields =>
      match first_present keys fields with
      | Some v => v
      | None => first_not_none (fun kv => find_first_walk keys (snd kv)) fields
      end
  | JArr items => first_not_none (find_first_walk keys) items
  | _ => JNull
  end.

Definition _find_first_value (node : value) (keys : list string) : value :=
  if is_none node then JNull else find_first_walk keys node.

(** ** Restaurant-node locator ([_guess_restaurant_node]) *)

Definition identity_keys : list string :=
  ["storeUuid"; "restaurantUuid"; "restaurantId"; "merchant"].

(** The list [candidates] once [_walk(root)] has returned. *)
Fixpoint restaurant_candidates (node : value) : list value :=
  match node with
  | JObj fields =>
      (if has_any identity_keys fields then [node] else [])
        ++ flat_map (fun kv => restaurant_candidates (snd kv)) fields
  | JArr items => flat_map restaurant_candidates items
  | _ => []
  end.

Definition _guess_restaurant_node (root : value) : value :=
  match restaurant_candidates root with
  | c :: _ => c
  | [] => if is_dict root then root else JNull
  end.

(** ** Category normalizer ([_guess_categories]) *)

Section FirstNonEmpty.
Context {B : Type}.
Variable g : B -> option (list value).

(** [for b in l: result = g(b); if result: return result] followed by
    [return None]. *)
Fixpoint first_nonempty (l : list B) : option (list value) :=
  match l with
  | [] => None
  | b :: tl =>
      match g b with
      | Some (x :: r) => Some (x :: r)
      | _ => first_nonempty tl
      end
  end.
End FirstNonEmpty.

(** The [titles] list built from a [categories] array of objects. *)
Fixpoint category_titles (raw : list value) : list value :=
  match raw with
  | [] => []
  | JObj item :: tl =>
      let title := py_or (get "title" item) (get "name" item) in
      if is_str title then title :: category_titles tl
      else category_titles tl
  | _ :: tl => category_titles tl
  end.

Fixpoint categories_walk (n : value) : option (list value) :=
  match n with
  | JObj fields =>
      let direct :=
        match lookup "categories" fields with
        | Some (JArr raw) =>
            if forallb is_str raw then Some (Some raw)
            else match category_titles raw with
                 | [] => None
                 | titles => Some (Some titles)
                 end
        | _ => None
        end in
      match direct with
      | Some r => r
      | None => first_nonempty (fun kv => categories_walk (snd kv)) fields
      end
  | JArr items => first_nonempty categories_walk items
  | _ => None
  end.

Definition _guess_categories (node : value) : list value :=
  match categories_walk node with
  | Some (x :: r) => x :: r
  | _ => []
  end.

(** ** Exceptions *)

Inductive exn : Type :=
| ValueError
| OverflowError.

Inductive result (A : Type) : Type :=
| Ok (a : A)
| Raise (e : exn).
Arguments Ok {A} a.
Arguments Raise {A} e.

Definition bind {A B : Type} (r : result A) (k : A -> result B) : result B :=
  match r with
  | Ok a => k a
  | Raise e => Raise e
  end.

Notation "x <- r ;; k" := (bind r (fun x => k))
  (at level 61, r at next level, right associativity).
Notation "' p <- r ;; k" := (bind r (fun x => let p := x in k))
  (at level 61, p pattern, r at next level, right associativity).

Definition returns {A : Type} (r : result A) : bool :=
  match r with Ok _ => true | Raise _ => false end.

(** ** Characters and strings

    A [str] is held as its UTF-8 bytes, a Rocq [string]; the methods that
    look at characters work on its code points.  A surrogate is encoded
    like any other code point, and a byte that starts no character stands
    for a value above the Unicode range, which no table knows.  The
    character tables are those of the Unicode database 14.0.0 that CPython
    3.11 carries. *)

Definition text : Type := list Z.

Definition byte_of (a : ascii) : Z := Z.of_nat (nat_of_ascii a).

Definition is_continuation (b : Z) : bool := (128 <=? b) && (b <? 192).

Definition stray (b : Z) : Z := 1114112 + b.

(** The code points of a string. *)
Fixpoint decode (s : string) : text :=
  match s with
  | EmptyString => []
  | String a r =>
      let b0 := byte_of a in
      if b0 <? 128 then b0 :: decode r
      else
        match r with
        | EmptyString => [stray b0]
        | String a1 r1 =>
            let b1 := byte_of a1 in
            if (192 <=? b0) && (b0 <? 224) && is_continuation b1
            then ((b0 - 192) * 64 + (b1 - 128)) :: decode r1
            else
              match r1 with
              | EmptyString => stray b0 :: decode r
              | String a2 r2 =>
                  let b2 := byte_of a2 in
                  if (224 <=? b0) && (b0 <? 240)
                     && is_continuation b1 && is_continuation b2
                  then ((b0 - 224) * 4096 + (b1 - 128) * 64 + (b2 - 128))
                         :: decode r2
                  else
                    match r2 with
                    | EmptyString => stray b0 :: decode r
                    | String a3 r3 =>
                        let b3 := byte_of a3 in
                        if (240 <=? b0) && (b0 <? 248)
                           && is_continuation b1 && is_continuation b2
                           && is_continuation b3
                        then ((b0 - 240) * 262144 + (b1 - 128) * 4096
                              + (b2 - 128) * 64 + (b3 - 128)) :: decode r3
                        else stray b0 :: decode r
                    end
              end
        end
  end.

Definition byte_char (b : Z) : ascii := ascii_of_nat (Z.to_nat b).

(** The UTF-8 bytes of a sequence of code points. *)
Fixpoint encode (t : text) : string :=
  match t with
  | [] => EmptyString
  | c :: r =>
      if c <? 128 then String (byte_char c) (encode r)
      else if c <? 2048 then
        String (byte_char (192 + c / 64))
          (String (byte_char (128 + c mod 64)) (encode r))
      else if c <? 65536 then
        String (byte_char (224 + c / 4096))
          (String (byte_char (128 + (c / 64) mod 64))
             (String (byte_char (128 + c mod 64)) (encode r)))
      else
        String (byte_char (240 + c / 262144))
          (String (byte_char (128 + (c / 4096) mod 64))
             (String (byte_char (128 + (c / 64) mod 64))
                (String (byte_char (128 + c mod 64)) (encode r))))
  end.

Definition in_ranges (ranges : list (Z * Z)) (c : Z) : bool :=
  existsb (fun '(lo, hi) => (lo <=? c) && (c <=? hi)) ranges.

(** White space: the characters [str.isspace], [str.strip] and the [\s]
    of a regular expression know. *)
Definition space_ranges : list (Z * Z) :=
  [(9, 13); (28, 32); (133, 133); (160, 160); (5760, 5760); (8192, 8202);
   (8232, 8233); (8239, 8239); (8287, 8287); (12288, 12288)].

(** [ch.isspace()] *)
Definition isspace (c : Z) : bool := in_ranges space_ranges c.

(** Decimal digits (category Nd): each entry starts ten consecutive
    characters that stand for 0 to 9.  They are the [\d] of a regular
    expression and the digits [int] and [float] read. *)
Definition decimal_starts : list Z :=
  [48; 1632; 1776; 1984; 2406; 2534; 2662; 2790; 2918; 3046; 3174; 3302;
   3430; 3558; 3664; 3792; 3872; 4160; 4240; 6112; 6160; 6470; 6608; 6784;
   6800; 6992; 7088; 7232; 7248; 42528; 43216; 43264; 43472; 43504; 43600;
   44016; 65296; 66720; 68912; 69734; 69872; 69942; 70096; 70384; 70736;
   70864; 71248; 71360; 71472; 71904; 72016; 72784; 73040; 73120; 92768;
   92864; 93008; 120782; 120792; 120802; 120812; 120822; 123200; 123632;
   125264; 130032].

(** The value of a decimal digit. *)
Definition decimal (c : Z) : option Z :=
  match find (fun s => (s <=? c) && (c <? s + 10)) decimal_starts with
  | Some s => Some (c - s)
  | None => None
  end.

(** The other characters [str.isdigit] accepts (superscripts, circled
    digits and the like), which [int] and [float] do not read. *)
Definition other_digit_ranges : list (Z * Z) :=
  [(178, 179); (185, 185); (4969, 4977); (6618, 6618); (8304, 8304);
   (8308, 8313); (8320, 8329); (9312, 9320); (9332, 9340); (9352, 9360);
   (9450, 9450); (9461, 9469); (9471, 9471); (10102, 10110);
   (10112, 10120); (10122, 10130); (68160, 68163); (69216, 69224);
   (69714, 69722); (127232, 127242)].

(** [ch.isdigit()] *)
Definition isdigit (c : Z) : bool :=
  match decimal c with
  | Some _ => true
  | None => in_ranges other_digit_ranges c
  end.

Definition between (lo hi : ascii) (c : Z) : bool :=
  (byte_of lo <=? c) && (c <=? byte_of hi).

(** Upper case of the characters above the ASCII range: [(lo, hi, step,
    delta)] maps every [step]-th character from [lo] to [hi] to the one
    [delta] further; [upper_special] lists the characters whose upper case
    has several characters. *)
Definition upper_runs : list (Z * Z * Z * Z) :=
  [(181, 181, 1, 743); (224, 246, 1, (-32)); (248, 254, 1, (-32));
   (255, 255, 1, 121); (257, 303, 2, (-1)); (305, 305, 1, (-232));
   (307, 311, 2, (-1)); (314, 328, 2, (-1)); (331, 375, 2, (-1));
   (378, 382, 2, (-1)); (383, 383, 1, (-300)); (384, 384, 1, 195);
   (387, 389, 2, (-1)); (392, 392, 1, (-1)); (396, 396, 1, (-1));
   (402, 402, 1, (-1)); (405, 405, 1, 97); (409, 409, 1, (-1));
   (410, 410, 1, 163); (414, 414, 1, 130); (417, 421, 2, (-1));
   (424, 424, 1, (-1)); (429, 429, 1, (-1)); (432, 432, 1, (-1));
   (436, 438, 2, (-1)); (441, 441, 1, (-1)); (445, 445, 1, (-1));
   (447, 447, 1, 56); (453, 453, 1, (-1)); (454, 454, 1, (-2));
   (456, 456, 1, (-1)); (457, 457, 1, (-2)); (459, 459, 1, (-1));
   (460, 460, 1, (-2)); (462, 476, 2, (-1)); (477, 477, 1, (-79));
   (479, 495, 2, (-1)); (498, 498, 1, (-1)); (499, 499, 1, (-2));
   (501, 501, 1, (-1)); (505, 543, 2, (-1)); (547, 563, 2, (-1));
   (572, 572, 1, (-1)); (575, 576, 1, 10815); (578, 578, 1, (-1));
   (583, 591, 2, (-1)); (592, 592, 1, 10783); (593, 593, 1, 10780);
   (594, 594, 1, 10782); (595, 595, 1, (-210)); (596, 596, 1, (-206));
   (598, 599, 1, (-205)); (601, 601, 1, (-202)); (603, 603, 1, (-203));
   (604, 604, 1, 42319); (608, 608, 1, (-205)); (609, 609, 1, 42315);
   (611, 611, 1, (-207)); (613, 613, 1, 42280); (614, 614, 1, 42308);
   (616, 616, 1, (-209)); (617, 617, 1, (-211)); (618, 618, 1, 42308);
   (619, 619, 1, 10743); (620, 620, 1, 42305); (623, 623, 1, (-211));
   (625, 625, 1, 10749); (626, 626, 1, (-213)); (629, 629, 1, (-214));
   (637, 637, 1, 10727); (640, 640, 1, (-218)); (642, 642, 1, 42307);
   (643, 643, 1, (-218)); (647, 647, 1, 42282); (648, 648, 1, (-218));
   (649, 649, 1, (-69)); (650, 651, 1, (-217)); (652, 652, 1, (-71));
   (658, 658, 1, (-219)); (669, 669, 1, 42261); (670, 670, 1, 42258);
   (837, 837, 1, 84); (881, 883, 2, (-1)); (887, 887, 1, (-1));
   (891, 893, 1, 130); (940, 940, 1, (-38)); (941, 943, 1, (-37));
   (945, 961, 1, (-32)); (962, 962, 1, (-31)); (963, 971, 1, (-32));
   (972, 972, 1, (-64)); (973, 974, 1, (-63)); (976, 976, 1, (-62));
   (977, 977, 1, (-57)); (981, 981, 1, (-47)); (982, 982, 1, (-54));
   (983, 983, 1, (-8)); (985, 1007, 2, (-1)); (1008, 1008, 1, (-86));
   (1009, 1009, 1, (-80)); (1010, 1010, 1, 7); (1011, 1011, 1, (-116));
   (1013, 1013, 1, (-96)); (1016, 1016, 1, (-1)); (1019, 1019, 1, (-1));
   (1072, 1103, 1, (-32)); (1104, 1119, 1, (-80)); (1121, 1153, 2, (-1));
   (1163, 1215, 2, (-1)); (1218, 1230, 2, (-1)); (1231, 1231, 1, (-15));
   (1233, 1327, 2, (-1)); (1377, 1414, 1, (-48)); (4304, 4346, 1, 3008);
   (4349, 4351, 1, 3008); (5112, 5117, 1, (-8)); (7296, 7296, 1, (-6254));
   (7297, 7297, 1, (-6253)); (7298, 7298, 1, (-6244));
   (7299, 7300, 1, (-6242)); (7301, 7301, 1, (-6243));
   (7302, 7302, 1, (-6236)); (7303, 7303, 1, (-6181));
   (7304, 7304, 1, 35266); (7545, 7545, 1, 35332); (7549, 7549, 1, 3814);
   (7566, 7566, 1, 35384); (7681, 7829, 2, (-1)); (7835, 7835, 1, (-59));
   (7841, 7935, 2, (-1)); (7936, 7943, 1, 8); (7952, 7957, 1, 8);
   (7968, 7975, 1, 8); (7984, 7991, 1, 8); (8000, 8005, 1, 8);
   (8017, 8023, 2, 8); (8032, 8039, 1, 8); (8048, 8049, 1, 74);
   (8050, 8053, 1, 86); (8054, 8055, 1, 100); (8056, 8057, 1, 128);
   (8058, 8059, 1, 112); (8060, 8061, 1, 126); (8112, 8113, 1, 8);
   (8126, 8126, 1, (-7205)); (8144, 8145, 1, 8); (8160, 8161, 1, 8);
   (8165, 8165, 1, 7); (8526, 8526, 1, (-28)); (8560, 8575, 1, (-16));
   (8580, 8580, 1, (-1)); (9424, 9449, 1, (-26)); (11312, 11359, 1, (-48));
   (11361, 11361, 1, (-1)); (11365, 11365, 1, (-10795));
   (11366, 11366, 1, (-10792)); (11368, 11372, 2, (-1));
   (11379, 11379, 1, (-1)); (11382, 11382, 1, (-1));
   (11393, 11491, 2, (-1)); (11500, 11502, 2, (-1));
   (11507, 11507, 1, (-1)); (11520, 11557, 1, (-7264));
   (11559, 11559, 1, (-7264)); (11565, 11565, 1, (-7264));
   (42561, 42605, 2, (-1)); (42625, 42651, 2, (-1));
   (42787, 42799, 2, (-1)); (42803, 42863, 2, (-1));
   (42874, 42876, 2, (-1)); (42879, 42887, 2, (-1));
   (42892, 42892, 1, (-1)); (42897, 42899, 2, (-1)); (42900, 42900, 1, 48);
   (42903, 42921, 2, (-1)); (42933, 42947, 2, (-1));
   (42952, 42954, 2, (-1)); (42961, 42961, 1, (-1));
   (42967, 42969, 2, (-1)); (42998, 42998, 1, (-1));
   (43859, 43859, 1, (-928)); (43888, 43967, 1, (-38864));
   (65345, 65370, 1, (-32)); (66600, 66639, 1, (-40));
   (66776, 66811, 1, (-40)); (66967, 66977, 1, (-39));
   (66979, 66993, 1, (-39)); (66995, 67001, 1, (-39));
   (67003, 67004, 1, (-39)); (68800, 68850, 1, (-64));
   (71872, 71903, 1, (-32)); (93792, 93823, 1, (-32));
   (125218, 125251, 1, (-34))].

Definition upper_special : list (Z * list Z) :=
  [(223, [83; 83]); (329, [700; 78]); (496, [74; 780]);
   (912, [921; 776; 769]); (944, [933; 776; 769]); (1415, [1333; 1362]);
   (7830, [72; 817]); (7831, [84; 776]); (7832, [87; 778]);
   (7833, [89; 778]); (7834, [65; 702]); (8016, [933; 787]);
   (8018, [933; 787; 768]); (8020, [933; 787; 769]);
   (8022, [933; 787; 834]); (8064, [7944; 921]); (8065, [7945; 921]);
   (8066, [7946; 921]); (8067, [7947; 921]); (8068, [7948; 921]);
   (8069, [7949; 921]); (8070, [7950; 921]); (8071, [7951; 921]);
   (8072, [7944; 921]); (8073, [7945; 921]); (8074, [7946; 921]);
   (8075, [7947; 921]); (8076, [7948; 921]); (8077, [7949; 921]);
   (8078, [7950; 921]); (8079, [7951; 921]); (8080, [7976; 921]);
   (8081, [7977; 921]); (8082, [7978; 921]); (8083, [7979; 921]);
   (8084, [7980; 921]); (8085, [7981; 921]); (8086, [7982; 921]);
   (8087, [7983; 921]); (8088, [7976; 921]); (8089, [7977; 921]);
   (8090, [7978; 921]); (8091, [7979; 921]); (8092, [7980; 921]);
   (8093, [7981; 921]); (8094, [7982; 921]); (8095, [7983; 921]);
   (8096, [8040; 921]); (8097, [8041; 921]); (8098, [8042; 921]);
   (8099, [8043; 921]); (8100, [8044; 921]); (8101, [8045; 921]);
   (8102, [8046; 921]); (8103, [8047; 921]); (8104, [8040; 921]);
   (8105, [8041; 921]); (8106, [8042; 921]); (8107, [8043; 921]);
   (8108, [8044; 921]); (8109, [8045; 921]); (8110, [8046; 921]);
   (8111, [8047; 921]); (8114, [8122; 921]); (8115, [913; 921]);
   (8116, [902; 921]); (8118, [913; 834]); (8119, [913; 834; 921]);
   (8124, [913; 921]); (8130, [8138; 921]); (8131, [919; 921]);
   (8132, [905; 921]); (8134, [919; 834]); (8135, [919; 834; 921]);
   (8140, [919; 921]); (8146, [921; 776; 768]); (8147, [921; 776; 769]);
   (8150, [921; 834]); (8151, [921; 776; 834]); (8162, [933; 776; 768]);
   (8163, [933; 776; 769]); (8164, [929; 787]); (8166, [933; 834]);
   (8167, [933; 776; 834]); (8178, [8186; 921]); (8179, [937; 921]);
   (8180, [911; 921]); (8182, [937; 834]); (8183, [937; 834; 921]);
   (8188, [937; 921]); (64256, [70; 70]); (64257, [70; 73]);
   (64258, [70; 76]); (64259, [70; 70; 73]); (64260, [70; 70; 76]);
   (64261, [83; 84]); (64262, [83; 84]); (64275, [1348; 1350]);
   (64276, [1348; 1333]); (64277, [1348; 1339]); (64278, [1358; 1350]);
   (64279, [1348; 1341])].

Definition upper_char (c : Z) : text :=
  if c <? 128 then (if between "a" "z" c then [c - 32] else [c])
  else
    match find (fun '(lo, hi, step, _) =>
                  (lo <=? c) && (c <=? hi) && ((c - lo) mod step =? 0))
               upper_runs with
    | Some (_, _, _, delta) => [c + delta]
    | None =>
        match find (fun '(k, _) => k =? c) upper_special with
        | Some (_, u) => u
        | None => [c]
        end
    end.

(** [s.upper()] *)
Definition upper (t : text) : text := flat_map upper_char t.

Fixpoint lstrip (t : text) : text :=
  match t with
  | c :: r => if isspace c then lstrip r else t
  | [] => []
  end.

Fixpoint rstrip (t : text) : text :=
  match t with
  | [] => []
  | c :: r =>
      match rstrip r with
      | [] => if isspace c then [] else [c]
      | r' => c :: r'
      end
  end.

(** [s.strip()] *)
Definition strip (t : text) : text := rstrip (lstrip t).

Fixpoint starts_with (p t : text) : bool :=
  match p, t with
  | [], _ => true
  | _ :: _, [] => false
  | a :: p', b :: t' => (a =? b) && starts_with p' t'
  end.

(** [p in s] *)
Fixpoint contains (p t : text) : bool :=
  starts_with p t
  || match t with
     | [] => false
     | _ :: r => contains p r
     end.

(** Decimal digit characters of a natural number below 100. *)
Definition digit_char (d : Z) : ascii := ascii_of_nat (48 + Z.to_nat d).

Definition two_digits (n : Z) : string :=
  String (digit_char (n / 10)) (String (digit_char (n mod 10)) EmptyString).

Definition unpadded (n : Z) : string :=
  if n <? 10 then String (digit_char n) EmptyString else two_digits n.

(** ** Floats (IEEE binary64) *)

Definition prec : Z := 53.
Definition emax : Z := 1024.

(** [float(n)] for an integer [n], rounded to nearest even. *)
Definition float_of_int (n : Z) : spec_float :=
  binary_normalize prec emax n 0 false.

(** The binary64 value nearest to [n / 10 ^ k] ([n >= 0]). *)
Definition float_of_decimal (n : Z) (k : nat) : spec_float :=
  match n with
  | Zpos p =>
      SFdiv prec emax (S754_finite false p 0)
        (S754_finite false (Z.to_pos (10 ^ Z.of_nat k)) 0)
  | _ => S754_zero false
  end.

(** The values of a run of decimal digits; [None] when a character is not
    one. *)
Fixpoint digits_of (t : text) : option (list Z) :=
  match t with
  | [] => Some []
  | c :: r =>
      match decimal c, digits_of r with
      | Some d, Some ds => Some (d :: ds)
      | _, _ => None
      end
  end.

(** The integer a list of digit values denotes, most significant
    first. *)
Fixpoint digits_value (acc : Z) (ds : list Z) : Z :=
  match ds with
  | [] => acc
  | d :: r => digits_value (10 * acc + d) r
  end.

(** Splits at the first decimal point. *)
Fixpoint split_point (t : text) : text * option text :=
  match t with
  | [] => ([], None)
  | c :: r =>
      if c =? 46 then ([], Some r)
      else let '(i, f) := split_point r in (c :: i, f)
  end.

(** [float(s)] on the strings that reach it in this program: a string made
    of characters [str.isdigit] accepts and of decimal points.  It is a
    number when every character but at most one point is a decimal digit
    and there is at least one; [None] stands for the [ValueError]
    otherwise. *)
Definition py_float (t : text) : option spec_float :=
  let '(int_part, frac) := split_point t in
  let frac_part := match frac with Some f => f | None => [] end in
  match digits_of int_part, digits_of frac_part with
  | Some i, Some f =>
      if (List.length i + List.length f =? 0)%nat then None
      else Some (float_of_decimal (digits_value 0 (i ++ f)) (List.length f))
  | _, _ => None
  end.

(** The float a JSON number literal without sign or exponent denotes
    ([json.loads] calls [float] on it). *)
Definition float_lit (s : string) : spec_float :=
  match py_float (decode s) with Some f => f | None => S754_nan end.

(** [int(f)]: truncation towards zero; raises on infinities and NaN. *)
Definition int_of_float (f : spec_float) : result Z :=
  match f with
  | S754_zero _ => Ok 0
  | S754_infinity _ => Raise OverflowError
  | S754_nan => Raise ValueError
  | S754_finite s m e =>
      let a := if 0 <=? e then Zpos m * 2 ^ e else Zpos m / 2 ^ (- e) in
      Ok (if s then - a else a)
  end.

(** ** Time parser ([utils_location.py]) *)

(** [_format_minutes]: [time(hour=h % 24, minute=m).strftime("%-I:%M %p")]
    in the C locale. *)
Definition _format_minutes (minutes : Z) : string :=
  let h := minutes / 60 in
  let m := minutes mod 60 in
  let hour := h mod 24 in
  let hour12 := if hour mod 12 =? 0 then 12 else hour mod 12 in
  let marker := if hour <? 12 then "AM" else "PM" in
  (unpadded hour12 ++ ":" ++ two_digits m ++ " " ++ marker)%string.

(** *** [datetime.strptime]

    [strptime] compiles the format to a regular expression, takes the first
    match in backtracking order and fails when the match does not reach the
    end of the string.  A regular-expression fragment is modelled by the
    list of its matches at the head of the input, in backtracking order. *)

Definition matcher (A : Type) : Type := text -> list (A * text).

(** A class of digit characters: the value of a character it matches. *)
Definition atom : Type := Z -> option Z.

(** [[lo-hi]] for ASCII digits. *)
Definition digit_range (lo hi : ascii) : atom :=
  fun c => if between lo hi c then Some (c - 48) else None.

(** [\d] *)
Definition any_digit : atom := decimal.

Definition one_char (p : atom) : matcher Z :=
  fun s =>
    match s with
    | a :: r => match p a with Some d => [(d, r)] | None => [] end
    | [] => []
    end.

(** Two digit characters, read by [int]. *)
Definition two_chars (p1 p2 : atom) : matcher Z :=
  fun s =>
    match s with
    | a :: b :: r =>
        match p1 a, p2 b with
        | Some d1, Some d2 => [(10 * d1 + d2, r)]
        | _, _ => []
        end
    | _ => []
    end.

(** [%H]: [2[0-3]|[0-1]\d|\d] *)
Definition re_H : matcher Z :=
  fun s =>
    (two_chars (digit_range "2" "2") (digit_range "0" "3") s
       ++ two_chars (digit_range "0" "1") any_digit s
       ++ one_char any_digit s)%list.

(** [%M]: [[0-5]\d|\d] *)
Definition re_M : matcher Z :=
  fun s =>
    (two_chars (digit_range "0" "5") any_digit s ++ one_char any_digit s)%list.

(** [%I]: [1[0-2]|0[1-9]|[1-9]] *)
Definition re_I : matcher Z :=
  fun s =>
    (two_chars (digit_range "1" "1") (digit_range "0" "2") s
       ++ two_chars (digit_range "0" "0") (digit_range "1" "9") s
       ++ one_char (digit_range "1" "9") s)%list.

(** A literal character of the format. *)
Definition re_lit (c : ascii) : matcher unit :=
  fun s =>
    match s with
    | a :: r => if a =? byte_of c then [(tt, r)] else []
    | [] => []
    end.

(** White space in the format: [\s+], greedy. *)
Fixpoint re_spaces (s : text) : list (unit * text) :=
  match s with
  | a :: r => if isspace a then (re_spaces r ++ [(tt, r)])%list else []
  | [] => []
  end.

(** A letter, in either case (the expression is compiled with
    [IGNORECASE]; no character outside ASCII matches [a], [m] or [p]). *)
Definition letter (c : ascii) (a : Z) : bool :=
  (a =? byte_of c) || (a =? byte_of c + 32).

(** [%p]: [am|pm], case-insensitive; [true] is PM. *)
Definition re_p : matcher bool :=
  fun s =>
    match s with
    | a :: b :: r =>
        if letter "M" b then
          if letter "A" a then [(false, r)]
          else if letter "P" a then [(true, r)]
          else []
        else []
    | _ => []
    end.

(** Sequencing of two fragments. *)
Definition re_seq {A B : Type} (p : matcher A) (q : A -> matcher B)
  : matcher B :=
  fun s => flat_map (fun '(a, r) => q a r) (p s).

(** The match [strptime] keeps: the first one, accepted when no data
    remains. *)
Definition full_match {A : Type} (ms : list (A * text)) : option A :=
  match ms with
  | (a, []) :: _ => Some a
  | _ => None
  end.

(** [datetime.strptime(s, "%H:%M")], as (hour, minute); [None] stands for
    the [ValueError]. *)
Definition strptime_HM (s : text) : option (Z * Z) :=
  full_match
    (re_seq re_H (fun h =>
       re_seq (re_lit ":") (fun _ =>
         re_seq re_M (fun m r => [((h, m), r)]))) s).

(** [datetime.strptime(s, "%I:%M %p")], as (hour, minute). *)
Definition strptime_IMp (s : text) : option (Z * Z) :=
  full_match
    (re_seq re_I (fun i =>
       re_seq (re_lit ":") (fun _ =>
         re_seq re_M (fun m =>
           re_seq re_spaces (fun _ =>
             re_seq re_p (fun pm r =>
               let hour :=
                 if pm then (if i =? 12 then i else i + 12)
                 else (if i =? 12 then 0 else i) in
               [((hour, m), r)]))))) s).

Definition _parse_time_to_minutes (value : value)
  : result (option Z * option string) :=
  match value with
  | JNull => Ok (None, None)
  | JBool b =>
      let minutes := if b then 1 else 0 in
      Ok (Some minutes, Some (_format_minutes minutes))
  | JInt minutes => Ok (Some minutes, Some (_format_minutes minutes))
  | JFloat f =>
      minutes <- int_of_float f ;;
      Ok (Some minutes, Some (_format_minutes minutes))
  | JStr s =>
      let value := strip (decode s) in
      let dt :=
        if contains (decode "AM") (upper value)
           || contains (decode "PM") (upper value)
        then strptime_IMp (upper value)
        else strptime_HM value in
      match dt with
      | Some (hour, minute) =>
          let minutes := hour * 60 + minute in
          Ok (Some minutes, Some (_format_minutes minutes))
      | None => Ok (None, None)
      end
  | JArr _ | JObj _ => Ok (None, None)
  end.

(** ** Location normalizer ([parse_location]) *)

Record LocationRecord : Type := {
  address : value;
  city : value;
  postalCode : value;
  country : value;
  latitude : value;
  longitude : value;
  locationType : value
}.

(** The guard of [_walk] on a dictionary. *)
Definition has_coordinates (n : dict) : bool :=
  has_key "latitude" n && has_key "longitude" n
  && is_int_or_float (get "latitude" n)
  && is_int_or_float (get "longitude" n).

(** [_walk] threads the variable [candidate] of the enclosing function. *)
Fixpoint location_walk (n : value) (candidate : option dict) : option dict :=
  match candidate with
  | Some _ => candidate
  | None =>
      match n with
      | JObj fields =>
          if has_coordinates fields then Some fields
          else fold_left (fun c kv => location_walk (snd kv) c) fields candidate
      | JArr items => fold_left (fun c item => location_walk item c) items candidate
      | _ => candidate
      end
  end.

(** [loc = candidate or {}]: an empty candidate and no candidate both give
    the empty dictionary. *)
Definition parse_location (node : value) : LocationRecord :=
  let candidate := location_walk node None in
  let loc := match candidate with Some d => d | None => [] end in
  {| address :=
       py_or (py_or (get "address" loc) (get "streetAddress" loc))
         (get "line1" loc);
     city := py_or (py_or (get "city" loc) (get "town" loc)) (get "locality" loc);
     postalCode := py_or (get "postalCode" loc) (get "zipCode" loc);
     country := py_or (get "country" loc) (get "countryCode" loc);
     latitude := get "latitude" loc;
     longitude := get "longitude" loc;
     locationType :=
       py_or (py_or (get "locationType" loc) (get "type" loc)) (JStr "DEFAULT") |}.

(** ** Hours normalizer ([parse_hours]) *)

Fixpoint find_first_key_walk (key : string) (n : value) : value :=
  match n with
  | JObj fields =>
      match lookup key fields with
      | Some v => v
      | None => first_not_none (fun kv => find_first_key_walk key (snd kv)) fields
      end
  | JArr items => first_not_none (find_first_key_walk key) items
  | _ => JNull
  end.

Definition _find_first_key (node : value) (key : string) : value :=
  find_first_key_walk key node.

Definition of_option_string (o : option string) : value :=
  match o with Some s => JStr s | None => JNull end.

(** One turn of the loop over [sections]: [Ok None] when the turn ends in
    [continue], [Ok (Some d)] when [d] is appended to
    [normalized_sections]. *)
Definition normalize_section (section : value) : result (option value) :=
  match section with
  | JObj sec =>
      let start_raw := py_or (get "start" sec) (get "openTime" sec) in
      let end_raw := py_or (get "end" sec) (get "closeTime" sec) in
      let title :=
        py_or (py_or (get "sectionTitle" sec) (get "label" sec)) (JStr "Open") in
      '(start_minutes, start_formatted) <- _parse_time_to_minutes start_raw ;;
      '(end_minutes, end_formatted) <- _parse_time_to_minutes end_raw ;;
      match start_minutes, end_minutes with
      | Some s, Some e =>
          Ok (Some (JObj [("startTime", JInt s);
                          ("endTime", JInt e);
                          ("sectionTitle", title);
                          ("startTimeFormatted", of_option_string start_formatted);
                          ("endTimeFormatted", of_option_string end_formatted)]))
      | _, _ => Ok None
      end
  | _ => Ok None
  end.

Section Collect.
Context {B : Type}.
Variable turn : B -> result (option value).

(** A loop that appends to a list what each turn produces and stops at
    the first exception. *)
Fixpoint collect (l : list B) : result (list value) :=
  match l with
  | [] => Ok []
  | b :: tl =>
      o <- turn b ;;
      rest <- collect tl ;;
      Ok (match o with Some v => v :: rest | None => rest end)
  end.
End Collect.

(** One turn of the loop over [schedule.items()]. *)
Definition normalize_day (entry : string * value) : result (option value) :=
  let '(day, sections) := entry in
  match sections with
  | JArr sections =>
      normalized_sections <- collect normalize_section sections ;;
      match normalized_sections with
      | [] => Ok None
      | _ =>
          Ok (Some (JObj [("dayRange", JStr day);
                          ("sectionHours", JArr normalized_sections)]))
      end
  | _ => Ok None
  end.

(** [_find_first_key(node, "openingHours") or _find_first_key(node,
    "schedule") or _find_first_key(node, "hoursOfOperation")] *)
Definition find_schedule (node : value) : value :=
  py_or (py_or (_find_first_key node "openingHours")
               (_find_first_key node "schedule"))
        (_find_first_key node "hoursOfOperation").

Definition prenormalized (hours_raw : value) : option (list value) :=
  match hours_raw with
  | JArr items => if forallb is_dict items then Some items else None
  | _ => None
  end.

Definition parse_hours (node : value) : result (list value) :=
  let hours_raw := _find_first_key node "hours" in
  match prenormalized hours_raw with
  | Some items => Ok items
  | None =>
      let schedule := find_schedule node in
      if negb (truthy schedule) then Ok []
      else
        match schedule with
        | JObj days => collect normalize_day days
        | _ => Ok []
        end
  end.

(** ** Menu-item detector and price extractor ([menu_parser.py]) *)

Definition price_signal_keys : list string :=
  ["price"; "priceString"; "displayPrice"; "unitPrice"].

Definition _looks_like_menu_item (node : dict) : bool :=
  let has_title := is_str (py_or (get "title" node) (get "name" node)) in
  let has_price := has_any price_signal_keys node in
  has_title && has_price.

(** The value of [price_raw] after the loop over [("price", "unitPrice",
    "amount")]. *)
Definition price_raw_of (node : dict) : value :=
  match first_present ["price"; "unitPrice"; "amount"] node with
  | Some v => v
  | None => JNull
  end.

(** [node.get("priceString") or node.get("displayPrice") or
    node.get("formattedPrice")] *)
Definition price_str_of (node : dict) : value :=
  py_or (py_or (get "priceString" node) (get "displayPrice" node))
        (get "formattedPrice" node).

(** The characters kept from a price string. *)
Definition price_char (ch : Z) : bool := isdigit ch || (ch =? 46).

(** The branch [if price_raw is None] of [_extract_price]. *)
Definition price_from_string (node : dict) : option spec_float :=
  match price_str_of node with
  | JStr price_str =>
      let digits := filter price_char (decode price_str) in
      match digits with
      | [] => None
      | _ => py_float digits
      end
  | _ => None
  end.

(** Modelled from the spec: the branch of [_extract_price] for a price
    found under a numeric key, which the sources break off after
    [if price_raw > 10000:].  Section 4.4: a number above the threshold
    10000 is taken as minor currency units and divided by 100, a number at
    or below it is taken as a decimal amount.  The specification gives no
    amount to a value that is not a number. *)
Definition price_from_number (price_raw : value) : option spec_float :=
  match price_raw with
  | JBool b => Some (float_of_int (if b then 1 else 0))
  | JInt z =>
      if 10000 <? z
      then Some (SFdiv prec emax (float_of_int z) (float_of_int 100))
      else Some (float_of_int z)
  | JFloat f =>
      if SFltb (float_of_int 10000) f
      then Some (SFdiv prec emax f (float_of_int 100))
      else Some f
  | _ => None
  end.

Definition _extract_price (node : dict) : option spec_float :=
  let price_raw := price_raw_of node in
  if is_none price_raw then price_from_string node
  else price_from_number price_raw.

Record MenuItem : Type := {
  item_title : value;
  item_price : option spec_float
}.

(** Modelled from the spec: [_normalize_menu_item] is not part of the
    sources.  Section 4.5: each match is normalized via the Price Extractor
    and field copy-through; section 3: a MenuItem has a title and a price
    that is a float or null.  The title is the title-like field the
    detector looked at, and the result is never empty. *)
Definition _normalize_menu_item (node : dict) : MenuItem :=
  {| item_title := py_or (get "title" node) (get "name" node);
     item_price := _extract_price node |}.

(** The list [items] once [_walk(root)] has returned. *)
Fixpoint menu_walk (node : value) : list MenuItem :=
  match node with
  | JObj fields =>
      (if _looks_like_menu_item fields then [_normalize_menu_item fields]
       else [])
        ++ flat_map (fun kv => menu_walk (snd kv)) fields
  | JArr items => flat_map menu_walk items
  | _ => []
  end.

Definition extract_menu_items (root : value) : list MenuItem := menu_walk root.

(** ** Document assembler ([_build_restaurant_document]) *)

Record RestaurantDocument : Type := {
  logoUrl : value;
  name : value;
  categories : list value;
  rating : value;
  reviewCount : value;
  currencyCode : value;
  location : LocationRecord;
  phoneNumber : value;
  uuid : value;
  hours : list value;
  url : string;
  menuItems : list MenuItem
}.

Definition _build_restaurant_document
    (url : string) (payload : value) (include_menu : bool)
  : result RestaurantDocument :=
  let root := payload in
  let restaurant_node := _guess_restaurant_node root in
  let logo_url := _find_first_value root ["logoUrl"; "heroImage"; "imageUrl"] in
  let name := _find_first_value restaurant_node ["name"; "title"] in
  let categories := _guess_categories (py_or restaurant_node root) in
  let rating :=
    _find_first_value (py_or restaurant_node root) ["rating"; "averageRating"] in
  let review_count :=
    _find_first_value (py_or restaurant_node root) ["reviewCount"; "ratingCount"] in
  let currency_code :=
    _find_first_value (py_or restaurant_node root) ["currencyCode"; "currency"] in
  let uuid :=
    _find_first_value (py_or restaurant_node root)
      ["uuid"; "storeUuid"; "restaurantUuid"] in
  let location := parse_location (py_or restaurant_node root) in
  hours <- parse_hours (py_or restaurant_node root) ;;
  let menu_items :=
    if include_menu then extract_menu_items (py_or restaurant_node root)
    else [] in
  Ok {| logoUrl := logo_url;
        name := py_or name (JStr "");
        categories := categories;
        rating := rating;
        reviewCount := review_count;
        currencyCode := currency_code;
        location := location;
        phoneNumber :=
          _find_first_value (py_or restaurant_node root)
            ["phoneNumber"; "phone"; "contactPhone"];
        uuid := uuid;
        hours := hours;
        url := url;
        menuItems := menu_items |}.

(** ** Vocabulary of the specification *)

(** Every Object of a tree, in depth-first pre-order (the Tree Walker). *)
Fixpoint objects_preorder (v : value) : list dict :=
  match v with
  | JObj fields =>
      fields :: flat_map (fun kv => objects_preorder (snd kv)) fields
  | JArr items => flat_map objects_preorder items
  | _ => []
  end.

(** The value of the first-priority candidate key present on an Object. *)
Definition key_value (keys : list string) (o : dict) : value :=
  match first_present keys o with Some v => v | None => JNull end.

(** The Key-Match Resolver as the specification words it: the first Object
    of the traversal that contains any candidate key decides. *)
Definition find_first_spec (node : value) (keys : list string) : value :=
  match find (has_any keys) (objects_preorder node) with
  | Some o => key_value keys o
  | None => JNull
  end.

(** The Objects the resolver looks at: the traversal does not go below an
    Object that contains a candidate key. *)
Fixpoint searched_objects (keys : list string) (v : value) : list dict :=
  match v with
  | JObj fields =>
      fields ::
        (if has_any keys fields then []
         else flat_map (fun kv => searched_objects keys (snd kv)) fields)
  | JArr items => flat_map (searched_objects keys) items
  | _ => []
  end.

(** An Object that contains a candidate key whose first-priority value is
    not null. *)
Definition resolves (keys : list string) (o : dict) : bool :=
  has_any keys o && negb (is_none (key_value keys o)).

(** The menu-item test as the specification words it. *)
Definition is_menu_item_spec (node : dict) : bool :=
  (is_str (get "title" node) || is_str (get "name" node))
  && has_any price_signal_keys node.

(** [%02d:%02d] of the hours and minutes of a minute count. *)
Definition hhmm (m : Z) : string :=
  (two_digits (m / 60) ++ ":" ++ two_digits (m mod 60))%string.

(** [any(ch.isdigit() for ch in s)] *)
Definition has_digit (t : text) : bool := existsb isdigit t.

(** [all(p(ch) for ch in s)] *)
Definition all_chars (p : Z -> bool) (t : text) : bool := forallb p t.

(** The Price Extractor as the specification words it: the keys are
    taken in priority order and the first one that holds a string decides;
    that string is cleaned and parsed, and the result is null when nothing
    is left or what is left does not parse. *)
Definition price_fallback_spec (node : dict) : option spec_float :=
  match find is_str [get "priceString" node; get "displayPrice" node;
                     get "formattedPrice" node] with
  | Some (JStr found) =>
      let digits := filter price_char (decode found) in
      if has_digit digits then py_float digits else None
  | _ => None
  end.

(** The round trip of one minute count, as a test. *)
Definition round_trip_ok (m : Z) : bool :=
  match _parse_time_to_minutes (JStr (hhmm m)) with
  | Ok (Some m', Some formatted) =>
      (m' =? m) && (formatted =? _format_minutes m)%string
  | _ => false
  end.

(** Coordinates the JSON data model calls numeric (boolean excluded). *)
Definition has_numeric_coordinates (n : dict) : bool :=
  has_key "latitude" n && has_key "longitude" n
  && is_json_number (get "latitude" n)
  && is_json_number (get "longitude" n).

(** The record returned when no candidate is found. *)
Definition default_location : LocationRecord :=
  {| address := JNull; city := JNull; postalCode := JNull; country := JNull;
     latitude := JNull; longitude := JNull; locationType := JStr "DEFAULT" |}.

(** [section.get("start") or section.get("openTime")] and
    [section.get("end") or section.get("closeTime")] *)
Definition start_raw_of (sec : dict) : value :=
  py_or (get "start" sec) (get "openTime" sec).
Definition end_raw_of (sec : dict) : value :=
  py_or (get "end" sec) (get "closeTime" sec).

(** The floats [int(value)] refuses: the infinities and NaN. *)
Definition non_finite (v : value) : bool :=
  match v with
  | JFloat (S754_infinity _) | JFloat S754_nan => true
  | _ => false
  end.

(** The payload [{"openingHours": {"Monday": [{"start": 1e999, "end":
    "17:00"}]}}]: [json.loads] reads [1e999] as the float infinity. *)
Definition infinite_start_payload : value :=
  JObj [("openingHours",
         JObj [("Monday",
                JArr [JObj [("start", JFloat (S754_infinity false));
                            ("end", JStr "17:00")]])])].

(** The payload of the end-to-end scenario, as [json.loads] builds it. *)
Definition test_diner_payload : value :=
  JObj [("merchant",
         JObj [("restaurantUuid", JStr "abc");
               ("name", JStr "Test Diner");
               ("latitude", JFloat (float_lit "40.1"));
               ("longitude", JFloat (SFopp (float_lit "74.2")));
               ("menu", JArr [JObj [("title", JStr "Burger");
                                    ("price", JFloat (float_lit "9.99"))]])])].

(** ** Further vocabulary *)

(** A generic form of the menu walk of [extract_menu_items]:
    [_normalize_menu_item], which the sources do not contain, is a
    parameter; [None] stands for a falsy result, which [if normalized:]
    leaves out. *)
Section MenuWalk.
Context {A : Type}.
Variable normalize : dict -> option A.

Fixpoint menu_walk_with (node : value) : list A :=
  match node with
  | JObj fields =>
      (if _looks_like_menu_item fields
       then match normalize fields with Some it => [it] | None => [] end
       else [])
        ++ flat_map (fun kv => menu_walk_with (snd kv)) fields
  | JArr items => flat_map menu_walk_with items
  | _ => []
  end.
End MenuWalk.

(** The sign of a float, [false] for NaN. *)
Definition sign_bit (f : spec_float) : bool :=
  match f with
  | S754_zero s | S754_infinity s | S754_finite s _ _ => s
  | S754_nan => false
  end.

(** The shape of a day emitted by the normalizing branch of
    [parse_hours]. *)
Definition is_section (v : value) : bool :=
  match v with
  | JObj [("startTime", JInt _); ("endTime", JInt _); ("sectionTitle", title);
          ("startTimeFormatted", JStr _); ("endTimeFormatted", JStr _)] =>
      truthy title
  | _ => false
  end.

Definition is_day (v : value) : bool :=
  match v with
  | JObj [("dayRange", JStr _); ("sectionHours", JArr (s :: sections))] =>
      forallb is_section (s :: sections)
  | _ => false
  end.

(** The value of [dayRange] in an emitted day. *)
Definition day_range (v : value) : value :=
  match v with JObj d => get "dayRange" d | _ => JNull end.

(** [l1] is [l2] with some elements left out. *)
Fixpoint subsequence {A : Type} (l1 l2 : list A) : Prop :=
  match l1, l2 with
  | [], _ => True
  | _ :: _, [] => False
  | x :: t1, y :: t2 => (x = y /\ subsequence t1 t2) \/ subsequence l1 t2
  end.

(** ** Settings and input list ([main.py]) *)

Definition DEFAULT_SETTINGS : dict :=
  [("concurrency", JInt 5);
   ("requestTimeout", JInt 15);
   ("userAgent",
    JStr "Mozilla/5.0 (Windows NT 10.0; Win64; x64) AppleWebKit/537.36 (KHTML, like Gecko) Chrome/124.0 Safari/537.36");
   ("includeMenuByDefault", JBool true);
   ("verifySsl", JBool true);
   ("logLevel", JStr "INFO");
   ("output",
    JObj [("directory", JStr "data");
          ("filename", JStr "restaurants_output.json")]);
   ("retry", JObj [("maxAttempts", JInt 3); ("backoffSeconds", JInt 2)])].

(** [d[k] = v]: the value of an existing key is replaced in place, a new
    key is added at the end. *)
Fixpoint dict_set (k : string) (v : value) (d : dict) : dict :=
  match d with
  | [] => [(k, v)]
  | (k', v') :: tl =>
      if (k' =? k)%string then (k, v) :: tl else (k', v') :: dict_set k v tl
  end.

(** [{**a, **b}] *)
Definition dict_update (a b : dict) : dict :=
  fold_left (fun acc kv => dict_set (fst kv) (snd kv) acc) b a.

(** [d.get(k, default)] *)
Definition get_or (k : string) (d : dict) (default : value) : value :=
  match lookup k d with Some v => v | None => default end.

(** One turn of the loop of [load_settings] over [user_settings.items()]. *)
Definition merge_entry (merged : dict) (entry : string * value) : dict :=
  let '(key, v) := entry in
  match v, lookup key merged with
  | JObj vd, Some (JObj md) => dict_set key (JObj (dict_update md vd)) merged
  | _, _ => dict_set key v merged
  end.

Definition merge_settings (defaults user_settings : dict) : dict :=
  fold_left merge_entry user_settings defaults.

(** [load_settings], given what [json.load] read from the settings file:
    [None] when the path is [None], the file does not exist, or opening or
    decoding it raises.  A file that does not hold an Object makes
    [user_settings.items()] raise, and the handler returns the defaults. *)
Definition load_settings (file : option value) : dict :=
  match file with
  | Some (JObj user_settings) => merge_settings DEFAULT_SETTINGS user_settings
  | _ => DEFAULT_SETTINGS
  end.

(** [load_input_urls], given what [json.load] read from the input file. *)
Definition load_input_urls (data : value) (include_menu_default : bool)
  : result (list value) :=
  match data with
  | JArr items =>
      Ok (flat_map
            (fun item =>
               match item with
               | JStr _ =>
                   [JObj [("url", item);
                          ("scrapeMenu", JBool include_menu_default)]]
               | JObj d =>
                   if has_key "url" d
                   then [JObj [("url", get "url" d);
                               ("scrapeMenu",
                                JBool (truthy (get_or "scrapeMenu" d
                                                 (JBool include_menu_default))))]]
                   else []
               | _ => []
               end) items)
  | _ => Raise ValueError
  end.

(** The arguments [main] passes to [process_single] for each entry of
    [urls]: [item["url"]] and [bool(item.get("scrapeMenu",
    include_menu_default))]. *)
Definition scrape_jobs (urls : list value) (include_menu_default : bool)
  : list (value * bool) :=
  flat_map
    (fun item =>
       match item with
       | JObj d =>
           [(get "url" d,
             truthy (get_or "scrapeMenu" d (JBool include_menu_default)))]
       | _ => []
       end) urls.

(** ** Fetching with retries ([_fetch_with_retries])

    The network is a function from the attempt number to the text of the
    response, [None] when [session.get] or [raise_for_status] raises an
    [Exception].  [time.sleep] returns, or raises for a length it refuses
    ([ValueError] for a negative length or a NaN, [OverflowError] for one
    too large); the call stands in the [except] handler, so what it raises
    leaves [_fetch_with_retries].  The loop is modelled with the trace of
    what it does. *)

Inductive fetch_event : Type :=
| Request (attempt : Z)
| Sleep (seconds : spec_float).

Section Fetch.

Variable time_sleep : spec_float -> result unit.
Variable get_text : Z -> option string.
Variable max_attempts : Z.
Variable backoff_seconds : spec_float.

Fixpoint fetch_loop (attempt : Z) (remaining : nat)
  : result (option string) * list fetch_event :=
  match remaining with
  | O => (Ok None, [])
  | S r =>
      match get_text attempt with
      | Some text => (Ok (Some text), [Request attempt])
      | None =>
          if attempt <? max_attempts then
            match time_sleep backoff_seconds with
            | Ok _ =>
                let '(res, events) := fetch_loop (attempt + 1) r in
                (res, Request attempt :: Sleep backoff_seconds :: events)
            | Raise e => (Raise e, [Request attempt; Sleep backoff_seconds])
            end
          else
            let '(res, events) := fetch_loop (attempt + 1) r in
            (res, Request attempt :: events)
      end
  end.

(** [for attempt in range(1, max_attempts + 1)] *)
Definition _fetch_with_retries : result (option string) * list fetch_event :=
  fetch_loop 1 (Z.to_nat max_attempts).

End Fetch.

Definition is_request (e : fetch_event) : bool :=
  match e with Request _ => true | Sleep _ => false end.

Definition requests (events : list fetch_event) : Z :=
  Z.of_nat (List.length (filter is_request events)).

Definition sleeps (events : list fetch_event) : Z :=
  Z.of_nat (List.length (filter (fun e => negb (is_request e)) events)).

(** A [time.sleep] for the samples: it refuses a NaN, an infinity and a
    negative length.  (A finite length too large for the clock, which
    [time.sleep] refuses as well, does not occur in the samples.) *)
Definition sample_sleep (seconds : spec_float) : result unit :=
  match seconds with
  | S754_nan => Raise ValueError
  | S754_infinity _ => Raise OverflowError
  | S754_finite true _ _ => Raise ValueError
  | _ => Ok tt
  end.

(** The round trip of one minute count through the 12-hour text, as a
    test. *)
Definition format_parse_ok (m : Z) : bool :=
  match _parse_time_to_minutes (JStr (_format_minutes m)) with
  | Ok (Some m', Some formatted) =>
      (m' =? m) && (formatted =? _format_minutes m)%string
  | _ => false
  end.

(** What a key holds after one turn of the merge loop. *)
Definition merged_value (old : option value) (v : value) : value :=
  match v, old with
  | JObj vd, Some (JObj md) => JObj (dict_update md vd)
  | _, _ => v
  end.

(** * Properties *)

(** Case analysis on the outcome of [strptime] inside the Time Parser. *)
Ltac case_strptime :=
  match goal with
  | |- context [match ?dt with Some _ => _ | None => _ end] =>
      destruct dt as [[? ?]|]
  end.

(** ** Dictionaries and loops *)

Lemma first_present_none (keys : list string) (o : dict) :
  first_present keys o = None <-> has_any keys o = false.
Proof.
  unfold has_any, has_key.
  induction keys as [|k ks IH]; simpl.
  - tauto.
  - destruct (lookup k o); simpl.
    + split; discriminate.
    + exact IH.
Qed.

Lemma first_present_some (keys : list string) (o : dict) (v : value) :
  first_present keys o = Some v -> has_any keys o = true.
Proof.
  intros H. destruct (has_any keys o) eqn:E; [reflexivity|].
  apply first_present_none in E. congruence.
Qed.

Lemma find_app {A : Type} (p : A -> bool) (l1 l2 : list A) :
  find p (l1 ++ l2) =
  match find p l1 with Some x => Some x | None => find p l2 end.
Proof.
  induction l1 as [|a l1 IH]; simpl; [reflexivity|].
  destruct (p a); [reflexivity | exact IH].
Qed.

Lemma resolves_not_none (keys : list string) (l : list dict) (o : dict) :
  find (resolves keys) l = Some o -> is_none (key_value keys o) = false.
Proof.
  intros H. apply find_some in H. destruct H as [_ H].
  unfold resolves in H. apply andb_true_iff in H.
  destruct H as [_ H]. now apply negb_true_iff in H.
Qed.

(** The loop of a walker over the children agrees with the search of the
    children's Objects in sequence, when each child does. *)
Lemma first_not_none_search {B : Type} (keys : list string)
    (g : B -> value) (objs : B -> list dict) (l : list B) :
  Forall (fun b =>
            g b = match find (resolves keys) (objs b) with
                  | Some o => key_value keys o
                  | None => JNull
                  end) l ->
  first_not_none g l =
  match find (resolves keys) (flat_map objs l) with
  | Some o => key_value keys o
  | None => JNull
  end.
Proof.
  induction 1 as [|b l Hb _ IH]; simpl; [reflexivity|].
  rewrite find_app, Hb.
  destruct (find (resolves keys) (objs b)) as [o|] eqn:E.
  - now rewrite (resolves_not_none _ _ _ E).
  - simpl. exact IH.
Qed.

(** ** Key-Match Resolver *)

Lemma find_first_walk_search (keys : list string) (n : value) :
  find_first_walk keys n =
  match find (resolves keys) (searched_objects keys n) with
  | Some o => key_value keys o
  | None => JNull
  end.
Proof.
  induction n as [| | | | |items IH|fields IH] using value_tree_ind;
    try reflexivity.
  - simpl. now apply first_not_none_search.
  - simpl. unfold resolves at 1, key_value at 1.
    destruct (first_present keys fields) as [v|] eqn:E.
    + rewrite (first_present_some _ _ _ E).
      destruct (is_none v) eqn:Hv; simpl.
      * destruct v; try discriminate. reflexivity.
      * unfold key_value. now rewrite E.
    + apply first_present_none in E. rewrite E. simpl.
      now apply first_not_none_search.
Qed.

(** C1 (as amended).  For every JSON value and every list of candidate
    keys, [_find_first_value] returns the value of the first-priority
    candidate key of the first Object, in depth-first pre-order, that
    contains a candidate key and holds a non-null value under its
    first-priority candidate key; the traversal does not descend into an
    Object that contains a candidate key; the result is null when there is
    no such Object. *)
Theorem find_first_value_first_non_null (node : value) (keys : list string) :
  _find_first_value node keys =
  match find (resolves keys) (searched_objects keys node) with
  | Some o => key_value keys o
  | None => JNull
  end.
Proof.
  unfold _find_first_value.
  destruct (is_none node) eqn:E.
  - destruct node; try discriminate. reflexivity.
  - apply find_first_walk_search.
Qed.

(** C1, counterexample.  In [{"first": {"id": null}, "second": {"id": 7}}]
    the first Object of the traversal that contains the candidate key [id]
    is the one under [first], whose value is null; the resolver does not
    stop there and returns 7 from the later sibling. *)
Lemma find_first_value_continues_past_null :
  let node := JObj [("first", JObj [("id", JNull)]);
                    ("second", JObj [("id", JInt 7)])] in
  find (has_any ["id"]) (objects_preorder node) = Some [("id", JNull)]
  /\ find_first_spec node ["id"] = JNull
  /\ _find_first_value node ["id"] = JInt 7
  /\ _find_first_value node ["id"] <> find_first_spec node ["id"].
Proof.
  cbv zeta. repeat split; try reflexivity.
  vm_compute. discriminate.
Qed.

(** Where no Object holds null under its first-priority candidate key, the
    resolver is the greedy search of the specification: the first Object
    of the traversal that contains a candidate key decides. *)
Lemma searched_objects_greedy (keys : list string) (n : value) :
  (forall o, In o (objects_preorder n) -> has_any keys o = true ->
             is_none (key_value keys o) = false) ->
  find (resolves keys) (searched_objects keys n) =
  find (has_any keys) (objects_preorder n).
Proof.
  assert (Hchildren :
    forall (B : Type) (sel : B -> value) (l : list B),
      Forall (fun b =>
        (forall o, In o (objects_preorder (sel b)) -> has_any keys o = true ->
                   is_none (key_value keys o) = false) ->
        find (resolves keys) (searched_objects keys (sel b)) =
        find (has_any keys) (objects_preorder (sel b))) l ->
      (forall o, In o (flat_map (fun b => objects_preorder (sel b)) l) ->
                 has_any keys o = true -> is_none (key_value keys o) = false) ->
      find (resolves keys) (flat_map (fun b => searched_objects keys (sel b)) l) =
      find (has_any keys) (flat_map (fun b => objects_preorder (sel b)) l)).
  { intros B sel l HF. induction HF as [|b l Hb _ IH]; intros Hnn.
    - reflexivity.
    - simpl in *. rewrite !find_app, Hb, IH.
      + reflexivity.
      + intros o Ho. apply Hnn, in_or_app. now right.
      + intros o Ho. apply Hnn, in_or_app. now left. }
  induction n as [| | | | |items IH|fields IH] using value_tree_ind;
    intros Hnn; try reflexivity.
  - exact (Hchildren value (fun v => v) items IH Hnn).
  - simpl. unfold resolves at 1.
    destruct (has_any keys fields) eqn:E.
    + rewrite (Hnn fields (or_introl eq_refl) E). reflexivity.
    + simpl. apply (Hchildren _ snd fields IH).
      intros o Ho. apply Hnn. now right.
Qed.

Corollary find_first_value_greedy (node : value) (keys : list string) :
  (forall o, In o (objects_preorder node) -> has_any keys o = true ->
             is_none (key_value keys o) = false) ->
  _find_first_value node keys = find_first_spec node keys.
Proof.
  intros Hnn. unfold _find_first_value, find_first_spec.
  destruct (is_none node) eqn:E.
  - destruct node; try discriminate. reflexivity.
  - now rewrite find_first_walk_search, searched_objects_greedy.
Qed.

(** The resolver returns null when no Object of the tree contains a
    candidate key. *)
Corollary find_first_value_absent (node : value) (keys : list string) :
  (forall o, In o (objects_preorder node) -> has_any keys o = false) ->
  _find_first_value node keys = JNull.
Proof.
  intros Hno. rewrite find_first_value_greedy.
  - unfold find_first_spec.
    destruct (find (has_any keys) (objects_preorder node)) as [o|] eqn:E;
      [|reflexivity].
    apply find_some in E. destruct E as [Hin Hany].
    rewrite (Hno o Hin) in Hany. discriminate.
  - intros o Hin Hany. rewrite (Hno o Hin) in Hany. discriminate.
Qed.

(** ** Menu-item detection *)

Lemma has_any_exists (keys : list string) (o : dict) :
  has_any keys o = true <-> exists k, In k keys /\ has_key k o = true.
Proof. unfold has_any. apply existsb_exists. Qed.

Lemma is_str_inv (v : value) : is_str v = true <-> exists s, v = JStr s.
Proof.
  destruct v; simpl; split; try discriminate; try (intros [s' H]; discriminate).
  - intros _. now exists s.
  - reflexivity.
Qed.

Lemma truthy_str (s : string) : truthy (JStr s) = true <-> s <> "".
Proof.
  simpl. rewrite negb_true_iff. split.
  - intros H ->. discriminate.
  - intros H. destruct s; [contradiction | reflexivity].
Qed.

(** C3 (as amended).  For every Object node, [_looks_like_menu_item] is
    true if and only if the node has a non-empty string-valued [title], or
    has a string-valued [name] while its [title] is absent or falsy (null,
    false, zero, empty), AND at least one of the keys [price],
    [priceString], [displayPrice], [unitPrice] is present; the value under
    the price key plays no part. *)
Theorem looks_like_menu_item_iff (node : dict) :
  _looks_like_menu_item node = true <->
  ((exists s, get "title" node = JStr s /\ s <> "")
   \/ (truthy (get "title" node) = false
       /\ exists s, get "name" node = JStr s))
  /\ exists k, In k price_signal_keys /\ has_key k node = true.
Proof.
  unfold _looks_like_menu_item, py_or.
  rewrite andb_true_iff, has_any_exists.
  apply and_iff_compat_r.
  destruct (truthy (get "title" node)) eqn:T.
  - rewrite is_str_inv. split.
    + intros [s E]. left. exists s. split; [exact E|].
      apply truthy_str. now rewrite <- E.
    + intros [[s [E _]] | [F _]]; [now exists s | discriminate].
  - rewrite is_str_inv. split.
    + intros H. right. now split.
    + intros [[s [E Hs]] | [_ H]]; [|exact H].
      rewrite E in T. apply truthy_str in Hs. congruence.
Qed.

(** C3, counterexample.  [{"title": 7, "name": "Burger", "price": 5}] has a
    string-valued [name] and the key [price], yet the detector answers
    false: the truthy non-string [title] hides the name. *)
Lemma looks_like_menu_item_title_hides_name :
  let node := [("title", JInt 7); ("name", JStr "Burger"); ("price", JInt 5)] in
  is_str (get "name" node) = true
  /\ has_key "price" node = true
  /\ is_menu_item_spec node = true
  /\ _looks_like_menu_item node = false.
Proof. cbv zeta. repeat split. Qed.

(** An empty [title] without a [name] is not accepted either. *)
Example looks_like_menu_item_empty_title :
  let node := [("title", JStr ""); ("price", JInt 5)] in
  is_menu_item_spec node = true /\ _looks_like_menu_item node = false.
Proof. cbv zeta. split; reflexivity. Qed.

(** What the detector accepts, the specification accepts. *)
Lemma looks_like_menu_item_sound (node : dict) :
  _looks_like_menu_item node = true -> is_menu_item_spec node = true.
Proof.
  unfold _looks_like_menu_item, is_menu_item_spec, py_or.
  intros H. apply andb_true_iff in H. destruct H as [Ht Hp].
  rewrite Hp, andb_true_r.
  destruct (truthy (get "title" node)); rewrite Ht;
    [reflexivity | apply orb_true_r].
Qed.

(** The detector looks at the presence of a price key only. *)
Example looks_like_menu_item_unparsable_price :
  _looks_like_menu_item [("name", JStr "Soup"); ("priceString", JStr "ask")]
  = true.
Proof. reflexivity. Qed.

(** ** Price extractor: the string fallback *)

(** The cleaned string keeps digits and decimal points only. *)
Lemma filter_all_chars (p : Z -> bool) (t : text) :
  all_chars p (filter p t) = true.
Proof.
  unfold all_chars. apply forallb_forall. intros c Hc.
  apply filter_In in Hc. tauto.
Qed.

(** It keeps every digit and every decimal point: nothing else is
    removed. *)
Lemma filter_id (p : Z -> bool) (t : text) :
  all_chars p t = true -> filter p t = t.
Proof.
  unfold all_chars. induction t as [|c r IH]; simpl; [reflexivity|].
  intros H. apply andb_true_iff in H. destruct H as [Hc Hr].
  now rewrite Hc, IH.
Qed.

Lemma decimal_isdigit (c d : Z) : decimal c = Some d -> isdigit c = true.
Proof. intros H. unfold isdigit. now rewrite H. Qed.

Lemma digits_of_no_digit (t : text) :
  has_digit t = false ->
  match digits_of t with Some ds => ds = [] | None => True end.
Proof.
  unfold has_digit. destruct t as [|c r]; simpl; [reflexivity|].
  intros H. apply orb_false_iff in H. destruct H as [Hc _].
  destruct (decimal c) as [d|] eqn:D; [|exact I].
  rewrite (decimal_isdigit c d D) in Hc. discriminate.
Qed.

Lemma split_point_digits (t : text) :
  has_digit t = false ->
  has_digit (fst (split_point t)) = false
  /\ match snd (split_point t) with
     | Some f => has_digit f = false
     | None => True
     end.
Proof.
  unfold has_digit. induction t as [|c r IH]; simpl; [auto|].
  intros H. apply orb_false_iff in H. destruct H as [Hc Hr].
  destruct (c =? 46); simpl; [auto|].
  destruct (split_point r) as [i f]. simpl in *.
  rewrite Hc. now apply IH.
Qed.

(** A string without a digit is not a number. *)
Lemma py_float_needs_digit (t : text) :
  has_digit t = false -> py_float t = None.
Proof.
  intros H. apply split_point_digits in H. unfold py_float.
  destruct (split_point t) as [i f]. simpl in H. destruct H as [Hi Hf].
  pose proof (digits_of_no_digit i Hi) as Di.
  destruct (digits_of i) as [di|]; [subst di|reflexivity].
  destruct f as [f|].
  - pose proof (digits_of_no_digit f Hf) as Df.
    destruct (digits_of f) as [df|]; [subst df|]; reflexivity.
  - reflexivity.
Qed.

Lemma py_or_chain (a b c : value) :
  py_or (py_or a b) c =
  match find truthy [a; b] with Some v => v | None => c end.
Proof.
  unfold py_or. simpl.
  destruct (truthy a) eqn:Ta; [now rewrite Ta|].
  destruct (truthy b); reflexivity.
Qed.

(** C7 (as amended).  For every Object on which no numeric price key
    resolves ([price_raw] is [None]), the Price Extractor takes the first
    truthy value among [priceString], [displayPrice], [formattedPrice] in
    priority order (an empty string, null, zero, false or an empty
    container is passed over); when that value is a string it removes
    every character that is not a digit or a decimal point and parses what
    is left as a float; it returns null when that value is not a string,
    when no digit is left and when what is left does not parse; for
    [{"priceString": "$12.50"}] it returns 12.5, the float 25 * 2^-1. *)
Theorem extract_price_string_fallback (node : dict) :
  price_raw_of node = JNull ->
  let found := price_str_of node in
  found = match find truthy [get "priceString" node; get "displayPrice" node]
          with Some v => v | None => get "formattedPrice" node end
  /\ match found with
     | JStr price_str =>
         let digits := filter price_char (decode price_str) in
         all_chars price_char digits = true
         /\ (has_digit digits = false -> _extract_price node = None)
         /\ (has_digit digits = true -> _extract_price node = py_float digits)
         /\ (py_float digits = None -> _extract_price node = None)
     | _ => _extract_price node = None
     end
  /\ _extract_price [("priceString", JStr "$12.50")]
     = Some (binary_normalize prec emax 25 (-1) false).
Proof.
  intros Hraw. cbv zeta.
  split; [apply py_or_chain|].
  split; [|vm_compute; reflexivity].
  unfold _extract_price, price_from_string. rewrite Hraw. simpl is_none.
  cbv iota.
  destruct (price_str_of node) as [| | | |s| |]; try reflexivity.
  set (digits := filter price_char (decode s)).
  split; [apply filter_all_chars|].
  split; [|split].
  - intros H. destruct digits; [reflexivity|].
    now apply py_float_needs_digit.
  - intros H. destruct digits; [discriminate | reflexivity].
  - intros H. now destruct digits.
Qed.

Lemma extract_price_string_fallback_witness :
  price_raw_of [("priceString", JStr "$12.50")] = JNull
  /\ _extract_price [("priceString", JStr "$12.50")]
     = Some (binary_normalize prec emax 25 (-1) false).
Proof.
  split; [reflexivity|].
  apply (extract_price_string_fallback [("priceString", JStr "$12.50")]).
  reflexivity.
Defined.

(** C7, counterexample.  In [{"priceString": "", "displayPrice":
    "$3.00"}] the first-priority key holds a string in which no digit
    remains, yet the result is 3.0 and not null: the empty string is passed
    over.  In [{"priceString": 5, "displayPrice": "$3.00"}] the only string
    parses to 3.0, yet the result is null: the truthy number found first
    decides. *)
Lemma extract_price_first_truthy_decides :
  let empty_first := [("priceString", JStr ""); ("displayPrice", JStr "$3.00")] in
  let number_first := [("priceString", JInt 5); ("displayPrice", JStr "$3.00")] in
  price_raw_of empty_first = JNull
  /\ get "priceString" empty_first = JStr ""
  /\ price_fallback_spec empty_first = None
  /\ _extract_price empty_first = Some (float_of_int 3)
  /\ price_raw_of number_first = JNull
  /\ price_fallback_spec number_first = Some (float_of_int 3)
  /\ _extract_price number_first = None
  /\ _extract_price empty_first <> price_fallback_spec empty_first
  /\ _extract_price number_first <> price_fallback_spec number_first.
Proof.
  cbv zeta. repeat split; try (vm_compute; reflexivity);
    vm_compute; discriminate.
Qed.

(** The priority order passes over a falsy value and stops at a truthy one
    of any type. *)
Example extract_price_empty_price_string :
  _extract_price [("priceString", JStr ""); ("displayPrice", JStr "$3.00")]
  = Some (float_of_int 3).
Proof. vm_compute. reflexivity. Qed.

Example extract_price_non_string :
  _extract_price [("priceString", JArr [JInt 5]); ("displayPrice", JStr "$3.00")]
  = None.
Proof. reflexivity. Qed.

Example extract_price_two_points :
  _extract_price [("displayPrice", JStr "1.250.00")] = None
  /\ _extract_price [("displayPrice", JStr "market price.")] = None.
Proof. split; reflexivity. Qed.

(** Digits outside ASCII: the Arabic-Indic digits of ["١٢"] (U+0661,
    U+0662) are read as 12.0; the superscript two (U+00B2) passes
    [str.isdigit] and makes [float] fail. *)
Example extract_price_unicode_digits :
  _extract_price [("priceString", JStr (encode [1633; 1634]))]
  = Some (float_of_int 12)
  /\ _extract_price [("priceString", JStr (encode [178; 53]))] = None.
Proof. split; vm_compute; reflexivity. Qed.

(** ** Document assembler *)

Lemma py_or_default_not_none (v d : value) :
  is_none d = false -> is_none (py_or v d) = false.
Proof.
  intros Hd. unfold py_or.
  destruct (truthy v) eqn:T; [|exact Hd].
  destruct v; try reflexivity. discriminate.
Qed.

(** C10.  Whenever the assembler returns a document, its [name] is not
    null: it is the empty string when the value resolved for [name] or
    [title] on the restaurant node is not truthy (nothing resolved, or a
    falsy value was found), and the resolved value otherwise; [logoUrl],
    [rating], [reviewCount], [currencyCode], [phoneNumber] and [uuid] are
    what the resolver returned, hence null when unresolved. *)
Theorem document_name_never_null
    (url : string) (payload : value) (include_menu : bool)
    (doc : RestaurantDocument) :
  _build_restaurant_document url payload include_menu = Ok doc ->
  let node := _guess_restaurant_node payload in
  let scope := py_or node payload in
  let resolved := _find_first_value node ["name"; "title"] in
  name doc <> JNull
  /\ (truthy resolved = false -> name doc = JStr "")
  /\ (truthy resolved = true -> name doc = resolved)
  /\ logoUrl doc = _find_first_value payload ["logoUrl"; "heroImage"; "imageUrl"]
  /\ rating doc = _find_first_value scope ["rating"; "averageRating"]
  /\ reviewCount doc = _find_first_value scope ["reviewCount"; "ratingCount"]
  /\ currencyCode doc = _find_first_value scope ["currencyCode"; "currency"]
  /\ phoneNumber doc
     = _find_first_value scope ["phoneNumber"; "phone"; "contactPhone"]
  /\ uuid doc = _find_first_value scope ["uuid"; "storeUuid"; "restaurantUuid"].
Proof.
  unfold _build_restaurant_document. cbv zeta.
  destruct (parse_hours _) as [h|e]; simpl; [|discriminate].
  intros H. injection H as <-. simpl.
  repeat split.
  - intros Hn.
    pose proof (py_or_default_not_none
                  (_find_first_value (_guess_restaurant_node payload)
                     ["name"; "title"]) (JStr "") eq_refl) as Hd.
    rewrite Hn in Hd. discriminate.
  - intros T. unfold py_or. now rewrite T.
  - intros T. unfold py_or. now rewrite T.
Qed.

Lemma document_name_never_null_witness :
  exists doc,
    _build_restaurant_document "https://example.test/store/1"
      (JObj [("name", JInt 0); ("rating", JNull)]) true = Ok doc
    /\ name doc = JStr ""
    /\ rating doc = JNull
    /\ uuid doc = JNull.
Proof.
  eexists. split; [vm_compute; reflexivity|].
  pose proof (document_name_never_null "https://example.test/store/1"
                (JObj [("name", JInt 0); ("rating", JNull)]) true _ eq_refl)
    as (_ & Hname & _ & _ & Hrating & _ & _ & _ & Huuid).
  split; [exact (Hname eq_refl)|].
  split; [exact Hrating | exact Huuid].
Defined.

(** C2.  For the payload [{"merchant": {"restaurantUuid": "abc", "name":
    "Test Diner", "latitude": 40.1, "longitude": -74.2, "menu": [{"title":
    "Burger", "price": 9.99}]}}] and [include_menu] true, the assembler
    returns a document whose [uuid] is ["abc"], whose [name] is ["Test
    Diner"], whose location has latitude 40.1, and whose [menuItems] has
    exactly one item, titled ["Burger"] and priced 9.99. *)
Theorem end_to_end_test_diner (url : string) :
  exists doc,
    _build_restaurant_document url test_diner_payload true = Ok doc
    /\ uuid doc = JStr "abc"
    /\ name doc = JStr "Test Diner"
    /\ latitude (location doc) = JFloat (float_lit "40.1")
    /\ menuItems doc = [ {| item_title := JStr "Burger";
                            item_price := Some (float_lit "9.99") |} ].
Proof.
  eexists. split; [unfold _build_restaurant_document; cbv zeta|].
  - replace (parse_hours _) with (@Ok (list value) [])
      by (vm_compute; reflexivity).
    simpl bind. reflexivity.
  - repeat split; vm_compute; reflexivity.
Qed.

(** In the scenario the restaurant node is the root itself (it holds the
    key [merchant]), and the remaining fields are empty or null. *)
Example test_diner_rest (url : string) :
  _guess_restaurant_node test_diner_payload = test_diner_payload
  /\ parse_hours test_diner_payload = Ok []
  /\ _guess_categories test_diner_payload = []
  /\ longitude (parse_location test_diner_payload)
     = JFloat (SFopp (float_lit "74.2"))
  /\ locationType (parse_location test_diner_payload) = JStr "DEFAULT".
Proof. repeat split; vm_compute; reflexivity. Qed.

Example float_literals :
  float_lit "40.1" = S754_finite false 5643573283048653 (-47)
  /\ float_lit "9.99" = S754_finite false 5623870034678907 (-49).
Proof. split; vm_compute; reflexivity. Qed.

(** ** Time parser *)

Lemma range_check (p : Z -> bool) (n : nat) :
  forallb p (map Z.of_nat (seq 0 n)) = true ->
  forall z, 0 <= z < Z.of_nat n -> p z = true.
Proof.
  intros H z Hz. rewrite forallb_forall in H. apply H.
  apply in_map_iff. exists (Z.to_nat z). split; [lia|].
  apply in_seq. lia.
Qed.

Lemma round_trip_all_day :
  forallb round_trip_ok (map Z.of_nat (seq 0 1440)) = true.
Proof. vm_compute. reflexivity. Qed.

(** C8.  For every integer [m] in [0, 1439], the Time Parser applied to
    the 24-hour string of [m] (hours [m / 60] and minutes [m mod 60], each
    on two digits, as [HH:MM]) returns [m] as its minutes component (and the
    12-hour rendering of [m] as its formatted component). *)
Theorem time_parser_round_trip (m : Z) :
  0 <= m <= 1439 ->
  _parse_time_to_minutes (JStr (hhmm m))
  = Ok (Some m, Some (_format_minutes m)).
Proof.
  intros Hm.
  assert (H : round_trip_ok m = true)
    by (apply (range_check _ 1440 round_trip_all_day); lia).
  unfold round_trip_ok in H.
  destruct (_parse_time_to_minutes (JStr (hhmm m))) as [[[m'|] [f|]]|e];
    try discriminate.
  apply andb_true_iff in H. destruct H as [H1 H2].
  apply Z.eqb_eq in H1. apply String.eqb_eq in H2. now subst.
Qed.

Lemma time_parser_round_trip_witness :
  0 <= 754 <= 1439
  /\ hhmm 754 = "12:34"
  /\ _parse_time_to_minutes (JStr "12:34") = Ok (Some 754, Some "12:34 PM").
Proof.
  split; [lia|]. split; [reflexivity|].
  exact (time_parser_round_trip 754 ltac:(lia)).
Defined.

(** On a string the Time Parser does not raise: a string [strptime]
    rejects gives [(None, None)]. *)
Lemma parse_time_string_contained (s : string) :
  exists r, _parse_time_to_minutes (JStr s) = Ok r
            /\ (r = (None, None)
                \/ exists minutes, r = (Some minutes, Some (_format_minutes minutes))).
Proof.
  unfold _parse_time_to_minutes.
  case_strptime; eexists; split; try reflexivity; eauto.
Qed.

Lemma parse_time_string_unparseable (s : string) :
  (if contains (decode "AM") (upper (strip (decode s)))
      || contains (decode "PM") (upper (strip (decode s)))
   then strptime_IMp (upper (strip (decode s)))
   else strptime_HM (strip (decode s))) = None ->
  _parse_time_to_minutes (JStr s) = Ok (None, None).
Proof. intros H. unfold _parse_time_to_minutes. now rewrite H. Qed.

Lemma parse_time_raise_inv (v : value) :
  returns (_parse_time_to_minutes v) = false ->
  v = JFloat S754_nan \/ exists s, v = JFloat (S754_infinity s).
Proof.
  destruct v as [| b | z | f | s | l | d]; simpl; try discriminate.
  - destruct f as [sg | sg | | sg m e]; simpl; try discriminate; eauto.
  - case_strptime; discriminate.
Qed.

(** The Time Parser raises exactly on the floats that are not finite. *)
Lemma parse_time_raises_iff (v : value) :
  returns (_parse_time_to_minutes v) = false <->
  v = JFloat S754_nan \/ exists s, v = JFloat (S754_infinity s).
Proof.
  split.
  - destruct v as [| b | z | f | s | l | d]; simpl; try discriminate.
    + destruct f as [sg | sg | | sg m e]; simpl; try discriminate; eauto.
    + case_strptime; discriminate.
  - intros [-> | [s ->]]; reflexivity.
Qed.

Example format_minutes_240 : _format_minutes 240 = "4:00 AM".
Proof. reflexivity. Qed.
Example format_minutes_659 : _format_minutes 659 = "10:59 AM".
Proof. reflexivity. Qed.
Example format_minutes_0 : _format_minutes 0 = "12:00 AM".
Proof. reflexivity. Qed.
Example format_minutes_1439 : _format_minutes 1439 = "11:59 PM".
Proof. reflexivity. Qed.
Example parse_time_4am :
  _parse_time_to_minutes (JStr " 4:00 am ") = Ok (Some 240, Some "4:00 AM").
Proof. vm_compute. reflexivity. Qed.
Example parse_time_12pm :
  _parse_time_to_minutes (JStr "12:30 PM") = Ok (Some 750, Some "12:30 PM").
Proof. vm_compute. reflexivity. Qed.
Example parse_time_12am :
  _parse_time_to_minutes (JStr "12:30 AM") = Ok (Some 30, Some "12:30 AM").
Proof. vm_compute. reflexivity. Qed.
Example parse_time_no_space :
  _parse_time_to_minutes (JStr "4:00AM") = Ok (None, None).
Proof. vm_compute. reflexivity. Qed.
Example parse_time_24 :
  _parse_time_to_minutes (JStr "24:00") = Ok (None, None).
Proof. vm_compute. reflexivity. Qed.
Example parse_time_2359 :
  _parse_time_to_minutes (JStr "23:59") = Ok (Some 1439, Some "11:59 PM").
Proof. vm_compute. reflexivity. Qed.
Example parse_time_7_5 :
  _parse_time_to_minutes (JStr "7:5") = Ok (Some 425, Some "7:05 AM").
Proof. vm_compute. reflexivity. Qed.
Example parse_time_7_60 :
  _parse_time_to_minutes (JStr "7:60") = Ok (None, None).
Proof. vm_compute. reflexivity. Qed.
Example py_float_12_50 :
  py_float (decode "12.50") = Some (S754_finite false 7036874417766400 (-49)).
Proof. vm_compute. reflexivity. Qed.
Example py_float_bad : py_float (decode "1.2.3") = None /\ py_float (decode ".") = None /\ py_float (decode "") = None.
Proof. vm_compute. auto. Qed.
Example py_float_edge : py_float (decode "12.") = Some (float_of_int 12) /\ py_float (decode ".5") = Some (S754_finite false 4503599627370496 (-53)).
Proof. vm_compute. auto. Qed.

(** ** Location normalizer *)

Lemma location_walk_found (n : value) (d : dict) :
  location_walk n (Some d) = Some d.
Proof. destruct n; reflexivity. Qed.

Lemma location_loop {B : Type} (sel : B -> value) (l : list B) :
  Forall (fun b => location_walk (sel b) None
                   = find has_coordinates (objects_preorder (sel b))) l ->
  forall c,
    fold_left (fun c b => location_walk (sel b) c) l c =
    match c with
    | Some d => Some d
    | None => find has_coordinates (flat_map (fun b => objects_preorder (sel b)) l)
    end.
Proof.
  induction 1 as [|b l Hb _ IH]; intros c; simpl.
  - now destruct c.
  - rewrite IH. destruct c as [d|].
    + now rewrite location_walk_found.
    + rewrite Hb, find_app.
      now destruct (find has_coordinates (objects_preorder (sel b))).
Qed.

(** The candidate is the first Object of the traversal that passes the
    guard. *)
Lemma location_walk_first (n : value) :
  location_walk n None = find has_coordinates (objects_preorder n).
Proof.
  induction n as [| | | | |items IH|fields IH] using value_tree_ind;
    try reflexivity.
  - simpl. now rewrite (location_loop (fun v => v) items IH).
  - simpl. destruct (has_coordinates fields); [reflexivity|].
    now rewrite (location_loop snd fields IH).
Qed.

(** Latitude and longitude are read together from the first Object, in
    depth-first pre-order, that holds both keys with [int], [float] or
    [bool] values; without such an Object the record is the default one. *)
Lemma parse_location_first_match (node : value) :
  match find has_coordinates (objects_preorder node) with
  | Some o =>
      latitude (parse_location node) = get "latitude" o
      /\ longitude (parse_location node) = get "longitude" o
      /\ is_int_or_float (latitude (parse_location node)) = true
      /\ is_int_or_float (longitude (parse_location node)) = true
  | None => parse_location node = default_location
  end.
Proof.
  unfold parse_location. rewrite location_walk_first.
  destruct (find has_coordinates (objects_preorder node)) as [o|] eqn:E.
  - apply find_some in E. destruct E as [_ E]. unfold has_coordinates in E.
    repeat (apply andb_true_iff in E; destruct E as [E ?]). simpl. auto.
  - reflexivity.
Qed.

Lemma is_int_or_float_not_none (v : value) :
  is_int_or_float v = true -> v <> JNull.
Proof. intros H ->. discriminate. Qed.

(** Non-null coordinates come from one and the same Object. *)
Lemma parse_location_same_object (node : value) :
  latitude (parse_location node) <> JNull
  \/ longitude (parse_location node) <> JNull ->
  exists o,
    find has_coordinates (objects_preorder node) = Some o
    /\ In o (objects_preorder node)
    /\ latitude (parse_location node) = get "latitude" o
    /\ longitude (parse_location node) = get "longitude" o.
Proof.
  intros H. pose proof (parse_location_first_match node) as M.
  destruct (find has_coordinates (objects_preorder node)) as [o|] eqn:E.
  - exists o. destruct M as (Hla & Hlo & _). apply find_some in E. tauto.
  - rewrite M in H. simpl in H. destruct H as [H|H]; now elim H.
Qed.

(** On a tree whose coordinate pairs are never boolean, the candidate is
    the first Object with numeric latitude and longitude. *)
Lemma parse_location_numeric (node : value) :
  (forall o, In o (objects_preorder node) ->
             has_coordinates o = has_numeric_coordinates o) ->
  match find has_numeric_coordinates (objects_preorder node) with
  | Some o =>
      latitude (parse_location node) = get "latitude" o
      /\ longitude (parse_location node) = get "longitude" o
  | None => parse_location node = default_location
  end.
Proof.
  intros Hsame. pose proof (parse_location_first_match node) as M.
  assert (E : find has_coordinates (objects_preorder node)
              = find has_numeric_coordinates (objects_preorder node)).
  { revert Hsame. generalize (objects_preorder node) as l.
    induction l as [|o l IH]; intros Hsame; simpl; [reflexivity|].
    rewrite (Hsame o (or_introl eq_refl)), IH; [reflexivity|].
    intros o' Ho'. apply Hsame. now right. }
  rewrite <- E.
  destruct (find has_coordinates (objects_preorder node)); tauto.
Qed.

(** C4, failing input.  On [{"latitude": true, "longitude": false}] no
    Object of the tree holds numeric coordinates, and the returned record
    has the non-null latitude [true] and longitude [false]:
    [isinstance(True, (int, float))] holds in Python. *)
Theorem parse_location_boolean_coordinates :
  let node := JObj [("latitude", JBool true); ("longitude", JBool false)] in
  find has_numeric_coordinates (objects_preorder node) = None
  /\ latitude (parse_location node) = JBool true
  /\ longitude (parse_location node) = JBool false
  /\ parse_location node <> default_location.
Proof.
  cbv zeta. repeat split. vm_compute. discriminate.
Qed.

(** ** Hours normalizer *)

Lemma prenormalized_iff (v : value) (items : list value) :
  prenormalized v = Some items <->
  v = JArr items /\ Forall (fun x => exists d, x = JObj d) items.
Proof.
  assert (Hall : forall l, forallb is_dict l = true <->
                           Forall (fun x => exists d, x = JObj d) l).
  { intros l. rewrite forallb_forall, Forall_forall.
    split; intros H x Hx; specialize (H x Hx).
    - destruct x; try discriminate. eauto.
    - now destruct H as [d ->]. }
  destruct v as [| | | | |l|]; simpl;
    try (split; [discriminate | intros [H _]; discriminate]).
  destruct (forallb is_dict l) eqn:E.
  - split.
    + intros H. injection H as <-. split; [reflexivity | now apply Hall].
    + intros [H _]. now injection H as <-.
  - split; [discriminate|].
    intros [H F]. injection H as <-. apply Hall in F. congruence.
Qed.

Lemma find_schedule_first_truthy (node : value) :
  truthy (find_schedule node) = true ->
  find truthy [_find_first_key node "openingHours";
               _find_first_key node "schedule";
               _find_first_key node "hoursOfOperation"]
  = Some (find_schedule node).
Proof.
  unfold find_schedule, py_or. simpl.
  destruct (truthy (_find_first_key node "openingHours")) eqn:A.
  - now rewrite A.
  - destruct (truthy (_find_first_key node "schedule")) eqn:B.
    + now rewrite B.
    + intros C. now rewrite C.
Qed.

Lemma find_schedule_none (node : value) :
  truthy (find_schedule node) = false ->
  find truthy [_find_first_key node "openingHours";
               _find_first_key node "schedule";
               _find_first_key node "hoursOfOperation"]
  = None.
Proof.
  unfold find_schedule, py_or. simpl.
  destruct (truthy (_find_first_key node "openingHours")) eqn:A.
  - cbn iota. rewrite A. cbn iota. congruence.
  - cbn iota. destruct (truthy (_find_first_key node "schedule")) eqn:B.
    + cbn iota. congruence.
    + intros C. now rewrite C.
Qed.

(** C5 (as amended).  For every JSON value: if the key [hours] resolves
    (single-key depth-first search) to an Array all of whose elements are
    Objects, that Array is returned as it is; otherwise the schedule is the
    first truthy value (not null, false, zero or empty) among what the
    search returns for [openingHours], [schedule] and [hoursOfOperation],
    in that order; if none is truthy the result is the empty sequence; if
    the schedule is not an Object the result is the empty sequence rather
    than an error; if it is an Object, the result is the normalization of
    its days. *)
Theorem parse_hours_resolution (node : value) :
  (forall items,
      _find_first_key node "hours" = JArr items ->
      Forall (fun x => exists d, x = JObj d) items ->
      parse_hours node = Ok items)
  /\ (prenormalized (_find_first_key node "hours") = None ->
      parse_hours node =
      match find truthy [_find_first_key node "openingHours";
                         _find_first_key node "schedule";
                         _find_first_key node "hoursOfOperation"] with
      | None => Ok []
      | Some (JObj days) => collect normalize_day days
      | Some _ => Ok []
      end).
Proof.
  split.
  - intros items Hh Hobj. unfold parse_hours.
    now rewrite (proj2 (prenormalized_iff _ items) (conj Hh Hobj)).
  - intros Hpre. unfold parse_hours. rewrite Hpre.
    destruct (truthy (find_schedule node)) eqn:T; cbn [negb].
    + rewrite (find_schedule_first_truthy node T).
      now destruct (find_schedule node).
    + now rewrite (find_schedule_none node T).
Qed.

(** C5, counterexample.  In [{"openingHours": [], "schedule": {"Monday":
    [{"start": "09:00", "end": "17:00"}]}}] no [hours] key resolves and the
    search finds [openingHours] first, holding an Array; the result is not
    the empty sequence: the empty Array is passed over and the days of
    [schedule] are normalized. *)
Lemma parse_hours_passes_over_empty_schedule :
  let node :=
    JObj [("openingHours", JArr []);
          ("schedule",
           JObj [("Monday", JArr [JObj [("start", JStr "09:00");
                                        ("end", JStr "17:00")]])])] in
  _find_first_key node "hours" = JNull
  /\ _find_first_key node "openingHours" = JArr []
  /\ parse_hours node
     = Ok [JObj [("dayRange", JStr "Monday");
                 ("sectionHours",
                  JArr [JObj [("startTime", JInt 540);
                              ("endTime", JInt 1020);
                              ("sectionTitle", JStr "Open");
                              ("startTimeFormatted", JStr "9:00 AM");
                              ("endTimeFormatted", JStr "5:00 PM")]])]]
  /\ parse_hours node <> Ok [].
Proof.
  cbv zeta. repeat split; try (vm_compute; reflexivity).
  vm_compute. discriminate.
Qed.

Example parse_hours_pass_through :
  parse_hours (JObj [("store", JObj [("hours", JArr [JObj [("anything", JInt 1)]])])])
  = Ok [JObj [("anything", JInt 1)]].
Proof. reflexivity. Qed.

Example parse_hours_array_schedule :
  parse_hours (JObj [("openingHours", JArr [JStr "Mon 9-5"])]) = Ok [].
Proof. reflexivity. Qed.

Lemma parse_hours_resolution_witness :
  parse_hours (JObj [("hours", JArr [JObj [("dayRange", JStr "Monday")]])])
  = Ok [JObj [("dayRange", JStr "Monday")]]
  /\ parse_hours (JObj [("hours", JStr "daily"); ("schedule", JArr [JInt 9])])
     = Ok [].
Proof.
  split.
  - apply (proj1 (parse_hours_resolution
                    (JObj [("hours", JArr [JObj [("dayRange", JStr "Monday")]])]))
             [JObj [("dayRange", JStr "Monday")]] eq_refl).
    repeat constructor. now exists [("dayRange", JStr "Monday")].
  - exact (proj2 (parse_hours_resolution
                    (JObj [("hours", JStr "daily"); ("schedule", JArr [JInt 9])]))
             eq_refl).
Defined.

(** *** Loops that collect *)

Lemma collect_raises {B : Type} (turn : B -> result (option value))
    (l : list B) :
  returns (collect turn l) = false ->
  exists b, In b l /\ returns (turn b) = false.
Proof.
  induction l as [|b l IH]; simpl; [discriminate|].
  destruct (turn b) as [o|e] eqn:E; simpl.
  - destruct (collect turn l) as [rest|e]; simpl; [discriminate|].
    intros _. destruct (IH eq_refl) as [b' [Hin Hb']]. eauto.
  - intros _. exists b. rewrite E. auto.
Qed.

Lemma collect_raises_in {B : Type} (turn : B -> result (option value))
    (l : list B) (b : B) :
  In b l -> returns (turn b) = false -> returns (collect turn l) = false.
Proof.
  intros Hin Hb. induction l as [|b' l IH]; [contradiction|].
  cbn [collect]. destruct (turn b') as [o|e] eqn:E; [|reflexivity].
  destruct Hin as [->|Hin]; [rewrite E in Hb; discriminate|].
  specialize (IH Hin). cbn [bind].
  destruct (collect turn l) as [rest|e]; [discriminate | reflexivity].
Qed.

Lemma collect_kept {B : Type} (turn : B -> result (option value))
    (l : list B) (kept : list value) :
  collect turn l = Ok kept ->
  forall v, In v kept -> exists b, In b l /\ turn b = Ok (Some v).
Proof.
  revert kept. induction l as [|b l IH]; simpl; intros kept H v Hv.
  - injection H as <-. contradiction.
  - destruct (turn b) as [o|e] eqn:E; simpl in H; [|discriminate].
    destruct (collect turn l) as [rest|e]; simpl in H; [|discriminate].
    injection H as <-.
    destruct o as [w|].
    + destruct Hv as [->|Hv]; [eauto|].
      destruct (IH rest eq_refl v Hv) as [b' [Hin Hb']]. eauto.
    + destruct (IH rest eq_refl v Hv) as [b' [Hin Hb']]. eauto.
Qed.

(** *** Sections and days *)

(** A section whose start or end does not parse is left out. *)
Lemma normalize_section_omitted (sec : dict)
    (sm em : option Z) (sf ef : option string) :
  _parse_time_to_minutes (start_raw_of sec) = Ok (sm, sf) ->
  _parse_time_to_minutes (end_raw_of sec) = Ok (em, ef) ->
  sm = None \/ em = None ->
  normalize_section (JObj sec) = Ok None.
Proof.
  intros Hs He Hnone. unfold normalize_section.
  fold (start_raw_of sec). fold (end_raw_of sec).
  rewrite Hs. simpl. rewrite He. simpl.
  destruct Hnone as [-> | ->]; [reflexivity | now destruct sm].
Qed.

(** A section whose start and end parse is emitted with both minute
    counts, and with the title ["Open"] when neither [sectionTitle] nor
    [label] gives one. *)
Lemma normalize_section_emitted (sec : dict) (s e : Z) (sf ef : option string) :
  _parse_time_to_minutes (start_raw_of sec) = Ok (Some s, sf) ->
  _parse_time_to_minutes (end_raw_of sec) = Ok (Some e, ef) ->
  exists title,
    normalize_section (JObj sec)
    = Ok (Some (JObj [("startTime", JInt s);
                      ("endTime", JInt e);
                      ("sectionTitle", title);
                      ("startTimeFormatted", of_option_string sf);
                      ("endTimeFormatted", of_option_string ef)]))
    /\ (truthy (get "sectionTitle" sec) = false ->
        truthy (get "label" sec) = false -> title = JStr "Open").
Proof.
  intros Hs He. eexists. split.
  - unfold normalize_section.
    fold (start_raw_of sec). fold (end_raw_of sec).
    rewrite Hs. simpl. rewrite He. simpl. reflexivity.
  - intros T L. unfold py_or. now rewrite T, L.
Qed.

(** Every emitted section carries a start and an end the Time Parser
    returned. *)
Lemma normalize_section_emitted_inv (section out : value) :
  normalize_section section = Ok (Some out) ->
  exists sec s e sf ef,
    section = JObj sec
    /\ _parse_time_to_minutes (start_raw_of sec) = Ok (Some s, sf)
    /\ _parse_time_to_minutes (end_raw_of sec) = Ok (Some e, ef)
    /\ get "startTime" (match out with JObj d => d | _ => [] end) = JInt s
    /\ get "endTime" (match out with JObj d => d | _ => [] end) = JInt e.
Proof.
  destruct section as [| | | | | |sec]; try discriminate.
  unfold normalize_section. fold (start_raw_of sec). fold (end_raw_of sec).
  destruct (_parse_time_to_minutes (start_raw_of sec)) as [[sm sf]|x] eqn:S;
    simpl; [|discriminate].
  destruct (_parse_time_to_minutes (end_raw_of sec)) as [[em ef]|x] eqn:E;
    simpl; [|discriminate].
  destruct sm as [s|], em as [e|]; try discriminate.
  intros H. injection H as <-.
  exists sec, s, e, sf, ef. repeat split; assumption.
Qed.

(** A day is emitted only with at least one surviving section. *)
Lemma normalize_day_emitted (day : string) (v out : value) :
  normalize_day (day, v) = Ok (Some out) ->
  exists sections kept,
    v = JArr sections
    /\ collect normalize_section sections = Ok kept
    /\ kept <> []
    /\ out = JObj [("dayRange", JStr day); ("sectionHours", JArr kept)].
Proof.
  destruct v as [| | | | |sections|]; try discriminate.
  unfold normalize_day.
  destruct (collect normalize_section sections) as [kept|x] eqn:C;
    simpl; [|discriminate].
  destruct kept as [|k kept]; [discriminate|].
  intros H. injection H as <-.
  exists sections, (k :: kept).
  split; [reflexivity|]. split; [exact C|].
  split; [discriminate | reflexivity].
Qed.

Lemma non_finite_raises (v : value) :
  returns (_parse_time_to_minutes v) = false <-> non_finite v = true.
Proof.
  split.
  - intros H. apply parse_time_raise_inv in H.
    destruct H as [-> | [s ->]]; reflexivity.
  - destruct v as [| | | f | | |]; try discriminate.
    destruct f; try discriminate; reflexivity.
Qed.

Lemma normalize_section_raises (section : value) :
  returns (normalize_section section) = false <->
  exists sec, section = JObj sec
              /\ (non_finite (start_raw_of sec) = true
                  \/ non_finite (end_raw_of sec) = true).
Proof.
  destruct section as [| | | | | |sec];
    try (split; [discriminate | intros (sec & H & _); discriminate]).
  unfold normalize_section.
  fold (start_raw_of sec). fold (end_raw_of sec).
  pose proof (non_finite_raises (start_raw_of sec)) as Hs.
  pose proof (non_finite_raises (end_raw_of sec)) as He.
  destruct (_parse_time_to_minutes (start_raw_of sec)) as [[sm sf]|x1];
    destruct (_parse_time_to_minutes (end_raw_of sec)) as [[em ef]|x2];
    cbn [bind returns] in *.
  - split.
    + now destruct sm, em.
    + intros (sec' & E & [H|H]); injection E as <-.
      * apply Hs in H. discriminate.
      * apply He in H. discriminate.
  - split; [|reflexivity]. intros _. exists sec.
    split; [reflexivity|]. right. now apply He.
  - split; [|reflexivity]. intros _. exists sec.
    split; [reflexivity|]. left. now apply Hs.
  - split; [|reflexivity]. intros _. exists sec.
    split; [reflexivity|]. left. now apply Hs.
Qed.

Lemma normalize_day_raises (day : string) (v : value) :
  returns (normalize_day (day, v)) = false <->
  exists sections, v = JArr sections
                   /\ returns (collect normalize_section sections) = false.
Proof.
  destruct v as [| | | | |sections|];
    try (split; [discriminate | intros (sections & H & _); discriminate]).
  unfold normalize_day.
  destruct (collect normalize_section sections) as [kept|x] eqn:C;
    cbn [bind returns].
  - split.
    + now destruct kept.
    + intros (sections' & E & H). injection E as <-.
      rewrite C in H. discriminate.
  - split; [|reflexivity]. intros _. exists sections.
    split; [reflexivity|]. now rewrite C.
Qed.

(** The hours normalizer raises exactly on a node whose [hours] is not a
    list of Objects and whose schedule is an Object that holds, under some
    day, a list with a section Object whose start or end is a float that is
    not finite. *)
Lemma parse_hours_raises_only_on_non_finite (node : value) :
  returns (parse_hours node) = false <->
  prenormalized (_find_first_key node "hours") = None
  /\ exists days day sections sec,
       find_schedule node = JObj days
       /\ In (day, JArr sections) days
       /\ In (JObj sec) sections
       /\ (non_finite (start_raw_of sec) = true
           \/ non_finite (end_raw_of sec) = true).
Proof.
  unfold parse_hours. split.
  - destruct (prenormalized _); [discriminate|].
    destruct (negb _); [discriminate|].
    destruct (find_schedule node) as [| | | | | |days]; try discriminate.
    intros H. split; [reflexivity|].
    apply collect_raises in H. destruct H as [[day v] [Hday H]].
    apply normalize_day_raises in H. destruct H as (sections & -> & H).
    apply collect_raises in H. destruct H as [section [Hsec H]].
    apply normalize_section_raises in H. destruct H as (sec & -> & H).
    exists days, day, sections, sec. auto.
  - intros (Hpre & days & day & sections & sec & Hs & Hday & Hsec & H).
    rewrite Hpre, Hs.
    assert (T : negb (truthy (JObj days)) = false)
      by (destruct days; [contradiction | reflexivity]).
    rewrite T.
    apply (collect_raises_in normalize_day days (day, JArr sections) Hday).
    apply normalize_day_raises. exists sections. split; [reflexivity|].
    apply (collect_raises_in normalize_section sections (JObj sec) Hsec).
    apply normalize_section_raises. exists sec. auto.
Qed.

(** C6, failing input.  The Time Parser raises past its boundary on a
    float that is not finite: [int(value)] is evaluated outside the [try]
    block.  The section is then not omitted; the exception leaves
    [parse_hours]. *)
Theorem parse_time_raises_on_non_finite :
  _parse_time_to_minutes (JFloat (S754_infinity false)) = Raise OverflowError
  /\ _parse_time_to_minutes (JFloat (S754_infinity true)) = Raise OverflowError
  /\ _parse_time_to_minutes (JFloat S754_nan) = Raise ValueError
  /\ normalize_section
       (JObj [("start", JFloat (S754_infinity false)); ("end", JStr "17:00")])
     = Raise OverflowError.
Proof. repeat split. Qed.

(** C9, failing input.  On [infinite_start_payload] the hours normalizer
    raises, and so does the assembler: no document, partial or not, is
    produced. *)
Theorem parse_hours_raises_on_infinite_time (url : string) (include_menu : bool) :
  parse_hours infinite_start_payload = Raise OverflowError
  /\ _build_restaurant_document url infinite_start_payload include_menu
     = Raise OverflowError.
Proof.
  assert (H : parse_hours infinite_start_payload = Raise OverflowError)
    by reflexivity.
  split; [exact H|].
  unfold _build_restaurant_document. cbv zeta.
  replace (py_or (_guess_restaurant_node infinite_start_payload)
             infinite_start_payload)
    with infinite_start_payload by reflexivity.
  now rewrite H.
Qed.

(** ** The model on sample inputs *)

Example strptime_12_hour_samples :
  strptime_IMp (decode "4:00   PM") = Some (16, 0)
  /\ strptime_IMp (decode "13:00 PM") = None
  /\ strptime_IMp (decode "0:30 AM") = None
  /\ strptime_IMp (decode "04:5 PM") = Some (16, 5)
  /\ strptime_IMp (decode "4:00PM") = None.
Proof. repeat split. Qed.

Example strptime_24_hour_samples :
  strptime_HM (decode "12:05") = Some (12, 5)
  /\ strptime_HM (decode "1:234") = None
  /\ strptime_HM (decode " 7:05") = None
  /\ strptime_HM (decode "07:30") = Some (7, 30).
Proof. repeat split. Qed.

Example format_minutes_negative : _format_minutes (-5) = "11:55 PM".
Proof. reflexivity. Qed.

Example parse_time_numbers :
  _parse_time_to_minutes (JBool true) = Ok (Some 1, Some "12:01 AM")
  /\ _parse_time_to_minutes (JFloat (float_lit "90.75"))
     = Ok (Some 90, Some "1:30 AM")
  /\ _parse_time_to_minutes (JArr []) = Ok (None, None).
Proof. repeat split; vm_compute; reflexivity. Qed.

Example py_float_overflow :
  py_float (decode ("1" ++ String.concat "" (repeat "0000000000" 40))%string)
  = Some (S754_infinity false).
Proof. vm_compute. reflexivity. Qed.

(** A section that starts at minute 0 is dropped: [0 or None] is
    [None]. *)
Example normalize_section_midnight :
  normalize_section (JObj [("start", JInt 0); ("end", JInt 600)]) = Ok None.
Proof. reflexivity. Qed.

Example guess_categories_samples :
  _guess_categories
    (JObj [("store", JObj [("categories", JArr [JStr "Pizza"; JStr "Italian"])])])
  = [JStr "Pizza"; JStr "Italian"]
  /\ _guess_categories
       (JObj [("categories", JArr [JObj [("name", JStr "Thai")]; JInt 3])])
     = [JStr "Thai"]
  /\ _guess_categories (JObj [("categories", JStr "none")]) = [].
Proof. repeat split. Qed.

Example extract_menu_items_nested :
  extract_menu_items
    (JArr [JObj [("name", JStr "Combo"); ("priceString", JStr "$12.50");
                 ("parts", JArr [JObj [("title", JStr "Fries");
                                       ("unitPrice", JInt 3)]])]])
  = [ {| item_title := JStr "Combo";
         item_price := Some (binary_normalize prec emax 25 (-1) false) |};
      {| item_title := JStr "Fries"; item_price := Some (float_of_int 3) |} ].
Proof. vm_compute. reflexivity. Qed.

(** * Further properties of the extraction code *)

(** ** Walks as traversals of the Objects *)

Lemma flat_map_filter {B C : Type} (p : B -> bool) (f : B -> list C)
    (l : list B) :
  flat_map (fun b => if p b then f b else []) l = flat_map f (filter p l).
Proof.
  induction l as [|b l IH]; simpl; [reflexivity|].
  destruct (p b); simpl; now rewrite IH.
Qed.

Lemma flat_map_nested {B C D : Type} (f : C -> list D) (g : B -> list C)
    (l : list B) :
  flat_map f (flat_map g l) = flat_map (fun b => flat_map f (g b)) l.
Proof.
  induction l as [|b l IH]; simpl; [reflexivity|].
  now rewrite flat_map_app, IH.
Qed.

(** A walk that visits every Object, contributes [t o] at the Object [o]
    and concatenates in order, is the traversal mapped through [t]. *)
Lemma walk_children {B C : Type} (sel : B -> value) (w : value -> list C)
    (t : dict -> list C) (l : list B) :
  Forall (fun b => w (sel b) = flat_map t (objects_preorder (sel b))) l ->
  flat_map (fun b => w (sel b)) l
  = flat_map t (flat_map (fun b => objects_preorder (sel b)) l).
Proof.
  intros H. rewrite flat_map_nested.
  induction H as [|b l Hb _ IH]; simpl; [reflexivity|].
  now rewrite Hb, IH.
Qed.

Lemma first_not_none_ext {B : Type} (g g' : B -> value) (l : list B) :
  Forall (fun b => g b = g' b) l -> first_not_none g l = first_not_none g' l.
Proof.
  induction 1 as [|b l Hb _ IH]; simpl; [reflexivity|].
  now rewrite Hb, IH.
Qed.

(** ** Key-Match Resolver and single-key search *)

(** The single-key search of [utils_location.py] and the resolver of
    [restaurant_parser.py] agree on a one-key candidate list. *)
Theorem find_first_key_as_resolver (node : value) (key : string) :
  _find_first_key node key = _find_first_value node [key].
Proof.
  unfold _find_first_key, _find_first_value.
  destruct (is_none node) eqn:E.
  - destruct node; try discriminate. reflexivity.
  - clear E.
    induction node as [| | | | |items IH|fields IH] using value_tree_ind;
      try reflexivity.
    + simpl. now apply first_not_none_ext.
    + simpl. destruct (lookup key fields); [reflexivity|].
      now apply first_not_none_ext.
Qed.

Lemma searched_objects_incl (keys : list string) (n : value) :
  incl (searched_objects keys n) (objects_preorder n).
Proof.
  assert (Hchildren :
    forall (B : Type) (sel : B -> value) (l : list B),
      Forall (fun b => incl (searched_objects keys (sel b))
                            (objects_preorder (sel b))) l ->
      incl (flat_map (fun b => searched_objects keys (sel b)) l)
           (flat_map (fun b => objects_preorder (sel b)) l)).
  { intros B sel l H o Ho. apply in_flat_map in Ho. destruct Ho as [b [Hb Ho]].
    apply in_flat_map. exists b. split; [exact Hb|].
    rewrite Forall_forall in H. now apply (H b Hb). }
  induction n as [| | | | |items IH|fields IH] using value_tree_ind;
    try (intros o Ho; contradiction).
  - exact (Hchildren value (fun v => v) items IH).
  - simpl. intros o [<-|Ho]; [now left|]. right.
    destruct (has_any keys fields); [contradiction|].
    now apply (Hchildren _ snd fields IH).
Qed.

Lemma first_present_key (keys : list string) (o : dict) (v : value) :
  first_present keys o = Some v ->
  exists k, In k keys /\ lookup k o = Some v.
Proof.
  induction keys as [|k ks IH]; simpl; [discriminate|].
  destruct (lookup k o) as [w|] eqn:E.
  - intros H. injection H as <-. exists k. auto.
  - intros H. destruct (IH H) as [k' [Hin Hk']]. eauto.
Qed.

(** A non-null result of the resolver is the value bound to a candidate
    key in an Object of the tree, and the first-priority one in that
    Object. *)
Theorem find_first_value_provenance (node : value) (keys : list string) :
  _find_first_value node keys <> JNull ->
  exists o k,
    In o (objects_preorder node)
    /\ In k keys
    /\ lookup k o = Some (_find_first_value node keys)
    /\ first_present keys o = Some (_find_first_value node keys).
Proof.
  unfold _find_first_value.
  destruct (is_none node); [intros H; now elim H|].
  rewrite find_first_walk_search.
  destruct (find (resolves keys) (searched_objects keys node)) as [o|] eqn:E;
    [|intros H; now elim H].
  intros _. apply find_some in E. destruct E as [Hin Hres].
  apply searched_objects_incl in Hin.
  unfold resolves in Hres. apply andb_true_iff in Hres.
  destruct Hres as [Hany _]. unfold key_value.
  destruct (first_present keys o) as [v|] eqn:F.
  - destruct (first_present_key _ _ _ F) as [k [Hk Hl]].
    exists o, k. auto.
  - apply first_present_none in F. congruence.
Qed.

Lemma find_first_value_provenance_witness :
  exists o k,
    In o (objects_preorder test_diner_payload)
    /\ In k ["uuid"; "storeUuid"; "restaurantUuid"]
    /\ lookup k o = Some (JStr "abc").
Proof.
  destruct (find_first_value_provenance test_diner_payload
              ["uuid"; "storeUuid"; "restaurantUuid"])
    as (o & k & Ho & Hk & Hl & _).
  - vm_compute. discriminate.
  - exists o, k. auto.
Defined.

(** With no candidate key the resolver finds nothing. *)
Theorem find_first_value_no_keys (node : value) :
  _find_first_value node [] = JNull.
Proof. apply find_first_value_absent. reflexivity. Qed.

(** ** Restaurant-node locator *)

Lemma restaurant_candidates_traversal (root : value) :
  restaurant_candidates root
  = map JObj (filter (has_any identity_keys) (objects_preorder root)).
Proof.
  set (t := fun o : dict => if has_any identity_keys o then [JObj o] else []).
  assert (E : restaurant_candidates root = flat_map t (objects_preorder root)).
  { induction root as [| | | | |items IH|fields IH] using value_tree_ind;
      try reflexivity.
    - exact (walk_children (fun v => v) restaurant_candidates t items IH).
    - simpl. f_equal.
      exact (walk_children snd restaurant_candidates t fields IH). }
  rewrite E. unfold t. rewrite flat_map_filter.
  generalize (filter (has_any identity_keys) (objects_preorder root)) as l.
  induction l as [|o l IH]; simpl; [reflexivity | now rewrite IH].
Qed.

Lemma find_filter_head {B : Type} (p : B -> bool) (l : list B) :
  find p l = match filter p l with x :: _ => Some x | [] => None end.
Proof.
  induction l as [|b l IH]; simpl; [reflexivity|].
  destruct (p b); [reflexivity | exact IH].
Qed.

(** The restaurant node is the first Object, in depth-first pre-order,
    that holds one of the keys [storeUuid], [restaurantUuid],
    [restaurantId], [merchant] (the Object holding the key, not the value
    under it); without one it is the root when the root is an Object, and
    null otherwise. *)
Theorem guess_restaurant_node_first (root : value) :
  _guess_restaurant_node root =
  match find (has_any identity_keys) (objects_preorder root) with
  | Some o => JObj o
  | None => if is_dict root then root else JNull
  end.
Proof.
  unfold _guess_restaurant_node.
  rewrite restaurant_candidates_traversal, find_filter_head.
  now destruct (filter (has_any identity_keys) (objects_preorder root)).
Qed.

Lemma has_any_nonempty (keys : list string) (o : dict) :
  has_any keys o = true -> truthy (JObj o) = true.
Proof.
  destruct o; [|reflexivity].
  unfold has_any. intros H. apply existsb_exists in H.
  destruct H as [k [_ H]]. discriminate.
Qed.

(** For an Object payload the restaurant node is an Object, and the scope
    [restaurant_node or root] of the assembler is the restaurant node. *)
Theorem restaurant_scope_of_object (payload : value) :
  is_dict payload = true ->
  is_dict (_guess_restaurant_node payload) = true
  /\ py_or (_guess_restaurant_node payload) payload
     = _guess_restaurant_node payload.
Proof.
  intros Hd. unfold _guess_restaurant_node.
  rewrite restaurant_candidates_traversal.
  destruct (filter (has_any identity_keys) (objects_preorder payload))
    as [|o l] eqn:E.
  - simpl. rewrite Hd. split; [exact Hd|].
    unfold py_or. now destruct (truthy payload).
  - assert (Hin : In o (filter (has_any identity_keys) (objects_preorder payload)))
      by (rewrite E; now left).
    apply filter_In in Hin. destruct Hin as [_ Hany].
    simpl. split; [reflexivity|].
    unfold py_or. now rewrite (has_any_nonempty _ _ Hany).
Qed.

Lemma restaurant_scope_of_object_witness :
  is_dict (_guess_restaurant_node (JObj [("store", JObj [("storeUuid", JInt 1)])]))
  = true.
Proof.
  apply (restaurant_scope_of_object
           (JObj [("store", JObj [("storeUuid", JInt 1)])])).
  reflexivity.
Defined.

(** ** Category normalizer *)

Lemma category_titles_strings (raw : list value) :
  forallb is_str (category_titles raw) = true.
Proof.
  induction raw as [|x raw IH]; simpl; [reflexivity|].
  destruct x; try exact IH.
  destruct (is_str (py_or (get "title" fields) (get "name" fields))) eqn:E;
    [|exact IH].
  simpl. now rewrite E.
Qed.

Lemma first_nonempty_strings {B : Type} (g : B -> option (list value))
    (l : list B) :
  Forall (fun b => forall r, g b = Some r -> forallb is_str r = true) l ->
  forall r, first_nonempty g l = Some r -> forallb is_str r = true.
Proof.
  induction 1 as [|b l Hb _ IH]; simpl; intros r; [discriminate|].
  destruct (g b) as [[|x t]|] eqn:E; try apply IH.
  intros H. injection H as <-. now apply Hb.
Qed.

Lemma categories_walk_strings (n : value) (r : list value) :
  categories_walk n = Some r -> forallb is_str r = true.
Proof.
  revert r.
  induction n as [| | | | |items IH|fields IH] using value_tree_ind;
    intros r; try discriminate.
  - simpl. now apply first_nonempty_strings.
  - simpl.
    assert (Hloop : first_nonempty (fun kv => categories_walk (snd kv)) fields
                    = Some r -> forallb is_str r = true)
      by now apply first_nonempty_strings.
    destruct (lookup "categories" fields) as [[| | | | |raw|]|]; try exact Hloop.
    destruct (forallb is_str raw) eqn:E.
    + intros H. now injection H as <-.
    + pose proof (category_titles_strings raw) as T.
      destruct (category_titles raw); [exact Hloop|].
      intros H. now injection H as <-.
Qed.

(** Whatever the tree, every category returned is a string. *)
Theorem guess_categories_strings (node : value) :
  forallb is_str (_guess_categories node) = true.
Proof.
  unfold _guess_categories.
  destruct (categories_walk node) as [[|x r]|] eqn:E; try reflexivity.
  exact (categories_walk_strings node _ E).
Qed.

(** An Object whose [categories] is an Array holding a string and
    something that is neither a string nor an Object with a title gives
    only what can be read as a title; when nothing can, the search goes on
    below. *)
Example guess_categories_mixed :
  _guess_categories
    (JObj [("categories", JArr [JInt 1; JNull]);
           ("inner", JObj [("categories", JArr [JStr "Sushi"])])])
  = [JStr "Sushi"].
Proof. reflexivity. Qed.

(** ** Menu walk *)

(** Whatever [_normalize_menu_item] is, the menu walk returns, in
    depth-first pre-order, the truthy normalizations of exactly the Objects
    that pass [_looks_like_menu_item]; Objects nested in a menu item are
    visited too. *)
Theorem menu_walk_traversal {A : Type} (normalize : dict -> option A)
    (root : value) :
  menu_walk_with normalize root
  = flat_map (fun o => match normalize o with Some it => [it] | None => [] end)
      (filter _looks_like_menu_item (objects_preorder root)).
Proof.
  rewrite <- flat_map_filter.
  set (t := fun o : dict =>
              if _looks_like_menu_item o
              then match normalize o with Some it => [it] | None => [] end
              else []).
  induction root as [| | | | |items IH|fields IH] using value_tree_ind;
    try reflexivity.
  - exact (walk_children (fun v => v) (menu_walk_with normalize) t items IH).
  - simpl. f_equal.
    exact (walk_children snd (menu_walk_with normalize) t fields IH).
Qed.

(** [extract_menu_items] is that walk for the modelled normalizer. *)
Lemma extract_menu_items_generic (root : value) :
  extract_menu_items root
  = menu_walk_with (fun o => Some (_normalize_menu_item o)) root.
Proof. reflexivity. Qed.

(** ** Price strings *)

Lemma binary_round_aux_sign (sx : bool) (mx ex : Z) (lx : SpecFloat.location) :
  sign_bit (binary_round_aux prec emax sx mx ex lx) = sx
  \/ binary_round_aux prec emax sx mx ex lx = S754_nan.
Proof.
  unfold binary_round_aux.
  destruct (shr_fexp prec emax mx ex lx) as [mrs' e'].
  destruct (shr_fexp prec emax _ e' loc_Exact) as [mrs'' e''].
  destruct (shr_m mrs''); auto.
  destruct (e'' <=? emax - prec); auto.
Qed.

Lemma float_of_decimal_sign (n : Z) (k : nat) :
  sign_bit (float_of_decimal n k) = false.
Proof.
  destruct n as [|p|p]; try reflexivity.
  unfold float_of_decimal, SFdiv.
  destruct (SFdiv_core_binary prec emax (Z.pos p) 0 _ 0) as [[mz ez] lz].
  destruct (binary_round_aux_sign (xorb false false) mz ez lz) as [H|H];
    rewrite H; reflexivity.
Qed.

(** A price read from a price string is never negative (and never the
    negative zero): a minus sign is removed with the other characters. *)
Theorem extract_price_string_not_negative (node : dict) (p : spec_float) :
  price_raw_of node = JNull ->
  _extract_price node = Some p ->
  sign_bit p = false /\ SFltb p (S754_zero false) = false.
Proof.
  intros Hraw. unfold _extract_price, price_from_string.
  rewrite Hraw. simpl is_none. cbv iota.
  destruct (price_str_of node) as [| | | |s| |]; try discriminate.
  destruct (filter price_char (decode s)) as [|c r]; [discriminate|].
  unfold py_float. destruct (split_point (c :: r)) as [i f].
  destruct (digits_of i) as [di|]; [|discriminate].
  destruct (digits_of match f with Some f0 => f0 | None => [] end)
    as [df|]; [|discriminate].
  destruct (List.length di + List.length df =? 0)%nat; [discriminate|].
  intros H. injection H as <-.
  pose proof (float_of_decimal_sign (digits_value 0 (di ++ df))
                (List.length df)) as S.
  split; [exact S|].
  destruct (float_of_decimal _ _) as [sg|sg| |sg m e]; simpl in S; subst;
    reflexivity.
Qed.

Lemma extract_price_string_not_negative_witness :
  _extract_price [("displayPrice", JStr "-$5.00")] = Some (float_of_int 5)
  /\ sign_bit (float_of_int 5) = false.
Proof.
  split; [vm_compute; reflexivity|].
  apply (extract_price_string_not_negative [("displayPrice", JStr "-$5.00")]);
    vm_compute; reflexivity.
Defined.

(** ** Time parser: ranges and round trips *)

Lemma digit_range_value (lo hi : ascii) (c d : Z) :
  digit_range lo hi c = Some d ->
  byte_of lo - 48 <= d <= byte_of hi - 48.
Proof.
  unfold digit_range, between.
  destruct ((byte_of lo <=? c) && (c <=? byte_of hi)) eqn:E; [|discriminate].
  intros H. injection H as <-.
  apply andb_true_iff in E. destruct E as [H1 H2]. lia.
Qed.

Lemma any_digit_value (c d : Z) : any_digit c = Some d -> 0 <= d <= 9.
Proof.
  unfold any_digit, decimal.
  destruct (find (fun s => (s <=? c) && (c <? s + 10)) decimal_starts)
    as [s|] eqn:F; [|discriminate].
  intros H. injection H as <-.
  apply find_some in F. destruct F as [_ F].
  apply andb_true_iff in F. destruct F as [H1 H2]. lia.
Qed.

Lemma one_char_range (p : atom) (lo hi : Z) (s : text) (v : Z) (r : text) :
  (forall a d, p a = Some d -> lo <= d <= hi) ->
  In (v, r) (one_char p s) -> lo <= v <= hi.
Proof.
  intros Hp. unfold one_char. destruct s as [|a t]; [contradiction|].
  destruct (p a) as [d|] eqn:E; [|contradiction].
  intros [H|[]]. apply pair_equal_spec in H. destruct H as [<- _].
  now apply (Hp a).
Qed.

Lemma two_chars_range (p1 p2 : atom) (lo1 hi1 lo2 hi2 : Z)
    (s : text) (v : Z) (r : text) :
  (forall a d, p1 a = Some d -> lo1 <= d <= hi1) ->
  (forall a d, p2 a = Some d -> lo2 <= d <= hi2) ->
  In (v, r) (two_chars p1 p2 s) ->
  10 * lo1 + lo2 <= v <= 10 * hi1 + hi2.
Proof.
  intros H1 H2. unfold two_chars.
  destruct s as [|a [|b t]]; try contradiction.
  destruct (p1 a) as [d1|] eqn:Ea; [|contradiction].
  destruct (p2 b) as [d2|] eqn:Eb; [|contradiction].
  intros [H|[]]. apply pair_equal_spec in H. destruct H as [<- _].
  specialize (H1 a d1 Ea). specialize (H2 b d2 Eb). lia.
Qed.

(** The bounds of a digit class with literal ends. *)
Ltac digit_bounds :=
  intros ? ? ?;
  match goal with
  | H : digit_range _ _ _ = Some _ |- _ =>
      apply digit_range_value in H; exact H
  | H : any_digit _ = Some _ |- _ => apply any_digit_value in H; exact H
  end.

Lemma re_H_range (s : text) (h : Z) (r : text) :
  In (h, r) (re_H s) -> 0 <= h <= 23.
Proof.
  unfold re_H. intros H. repeat (apply in_app_or in H; destruct H as [H|H]).
  - apply (two_chars_range _ _ 2 2 0 3) in H; [lia| |]; digit_bounds.
  - apply (two_chars_range _ _ 0 1 0 9) in H; [lia| |]; digit_bounds.
  - apply (one_char_range _ 0 9) in H; [lia|]; digit_bounds.
Qed.

Lemma re_M_range (s : text) (m : Z) (r : text) :
  In (m, r) (re_M s) -> 0 <= m <= 59.
Proof.
  unfold re_M. intros H. apply in_app_or in H. destruct H as [H|H].
  - apply (two_chars_range _ _ 0 5 0 9) in H; [lia| |]; digit_bounds.
  - apply (one_char_range _ 0 9) in H; [lia|]; digit_bounds.
Qed.

Lemma re_I_range (s : text) (i : Z) (r : text) :
  In (i, r) (re_I s) -> 1 <= i <= 12.
Proof.
  unfold re_I. intros H. repeat (apply in_app_or in H; destruct H as [H|H]).
  - apply (two_chars_range _ _ 1 1 0 2) in H; [lia| |]; digit_bounds.
  - apply (two_chars_range _ _ 0 0 1 9) in H; [lia| |]; digit_bounds.
  - apply (one_char_range _ 1 9) in H; [lia|]; digit_bounds.
Qed.

Lemma in_re_seq {A B : Type} (p : matcher A) (q : A -> matcher B)
    (s : text) (b : B) (r : text) :
  In (b, r) (re_seq p q s) ->
  exists a r', In (a, r') (p s) /\ In (b, r) (q a r').
Proof.
  unfold re_seq. intros H. apply in_flat_map in H.
  destruct H as [[a r'] [H1 H2]]. eauto.
Qed.

Lemma full_match_in {A : Type} (ms : list (A * text)) (a : A) :
  full_match ms = Some a -> In (a, []) ms.
Proof.
  destruct ms as [|[x [|c t]] ms]; try discriminate.
  intros H. injection H as <-. now left.
Qed.

Lemma strptime_HM_range (s : text) (h m : Z) :
  strptime_HM s = Some (h, m) -> 0 <= h <= 23 /\ 0 <= m <= 59.
Proof.
  unfold strptime_HM. intros H. apply full_match_in in H.
  apply in_re_seq in H. destruct H as (h0 & r1 & Hh & H).
  apply in_re_seq in H. destruct H as (u & r2 & _ & H).
  apply in_re_seq in H. destruct H as (m0 & r3 & Hm & H).
  destruct H as [H|[]]. injection H as <- <- _.
  apply re_H_range in Hh. apply re_M_range in Hm. lia.
Qed.

Lemma strptime_IMp_range (s : text) (h m : Z) :
  strptime_IMp s = Some (h, m) -> 0 <= h <= 23 /\ 0 <= m <= 59.
Proof.
  unfold strptime_IMp. intros H. apply full_match_in in H.
  apply in_re_seq in H. destruct H as (i & r1 & Hi & H).
  apply in_re_seq in H. destruct H as (u & r2 & _ & H).
  apply in_re_seq in H. destruct H as (m0 & r3 & Hm & H).
  apply in_re_seq in H. destruct H as (u' & r4 & _ & H).
  apply in_re_seq in H. destruct H as (pm & r5 & _ & H).
  destruct H as [H|[]]. injection H as <- <- _.
  apply re_I_range in Hi. apply re_M_range in Hm.
  destruct pm; destruct (i =? 12) eqn:E; lia.
Qed.

(** Read from a string, a time is a minute of the day: between 0 and
    1439. *)
Theorem parse_time_string_range (s : string) (minutes : Z)
    (formatted : option string) :
  _parse_time_to_minutes (JStr s) = Ok (Some minutes, formatted) ->
  0 <= minutes <= 1439.
Proof.
  unfold _parse_time_to_minutes.
  destruct (contains (decode "AM") (upper (strip (decode s)))
            || contains (decode "PM") (upper (strip (decode s)))).
  - destruct (strptime_IMp (upper (strip (decode s)))) as [[h m]|] eqn:E;
      [|discriminate].
    intros H. injection H as <- _. apply strptime_IMp_range in E. lia.
  - destruct (strptime_HM (strip (decode s))) as [[h m]|] eqn:E;
      [|discriminate].
    intros H. injection H as <- _. apply strptime_HM_range in E. lia.
Qed.

Lemma format_minutes_mod (minutes : Z) :
  _format_minutes minutes = _format_minutes (minutes mod 1440).
Proof.
  unfold _format_minutes.
  assert (E : minutes mod 1440 = minutes mod 60 + 60 * ((minutes / 60) mod 24))
    by (change 1440 with (60 * 24); apply Z.rem_mul_r; lia).
  assert (H60 : 0 <= minutes mod 60 < 60) by (apply Z.mod_pos_bound; lia).
  assert (H24 : 0 <= (minutes / 60) mod 24 < 24) by (apply Z.mod_pos_bound; lia).
  assert (Ed : minutes mod 1440 / 60 = (minutes / 60) mod 24).
  { rewrite E. symmetry. apply (Z.div_unique _ 60 _ (minutes mod 60)); lia. }
  assert (Em : (minutes mod 1440) mod 60 = minutes mod 60).
  { rewrite E. symmetry. apply (Z.mod_unique _ 60 ((minutes / 60) mod 24)); lia. }
  rewrite Ed, Em, Z.mod_mod by lia. reflexivity.
Qed.

(** The 12-hour text depends on the minute count modulo a day only. *)
Theorem format_minutes_periodic (minutes k : Z) :
  _format_minutes (minutes + 1440 * k) = _format_minutes minutes.
Proof.
  rewrite (format_minutes_mod (minutes + 1440 * k)),
          (format_minutes_mod minutes).
  f_equal. rewrite Z.mul_comm. apply Z.mod_add. lia.
Qed.

Lemma format_parse_all_day :
  forallb format_parse_ok (map Z.of_nat (seq 0 1440)) = true.
Proof. vm_compute. reflexivity. Qed.

(** Formatting then parsing: for every integer, the Time Parser reads the
    12-hour text of [_format_minutes] back as the minute of the day, and
    formats it to the same text. *)
Theorem format_then_parse (minutes : Z) :
  _parse_time_to_minutes (JStr (_format_minutes minutes))
  = Ok (Some (minutes mod 1440), Some (_format_minutes minutes)).
Proof.
  rewrite (format_minutes_mod minutes).
  assert (Hm : 0 <= minutes mod 1440 < 1440) by (apply Z.mod_pos_bound; lia).
  generalize dependent (minutes mod 1440). intros m Hm.
  assert (H : format_parse_ok m = true)
    by (apply (range_check _ 1440 format_parse_all_day); lia).
  unfold format_parse_ok in H.
  destruct (_parse_time_to_minutes (JStr (_format_minutes m)))
    as [[[m'|] [f|]]|e]; try discriminate.
  apply andb_true_iff in H. destruct H as [H1 H2].
  apply Z.eqb_eq in H1. apply String.eqb_eq in H2. now subst.
Qed.

(** A number is taken as the minute count as it is, in or out of the day;
    only the text wraps around. *)
Theorem parse_time_integer_unbounded (z : Z) :
  _parse_time_to_minutes (JInt z)
  = Ok (Some z, Some (_format_minutes (z mod 1440))).
Proof. simpl. now rewrite <- format_minutes_mod. Qed.

(** *** White space around a time *)

Lemma lstrip_all_space (w : text) :
  all_chars isspace w = true -> lstrip w = [].
Proof.
  unfold all_chars. induction w as [|c w IH]; simpl; [reflexivity|].
  intros H. apply andb_true_iff in H. destruct H as [Hc Hw].
  rewrite Hc. now apply IH.
Qed.

Lemma rstrip_all_space (w : text) :
  all_chars isspace w = true -> rstrip w = [].
Proof.
  unfold all_chars. induction w as [|c w IH]; simpl; [reflexivity|].
  intros H. apply andb_true_iff in H. destruct H as [Hc Hw].
  now rewrite (IH Hw), Hc.
Qed.

Lemma lstrip_leading (w s : text) :
  all_chars isspace w = true -> lstrip (w ++ s)%list = lstrip s.
Proof.
  unfold all_chars. induction w as [|c w IH]; simpl; [reflexivity|].
  intros H. apply andb_true_iff in H. destruct H as [Hc Hw].
  rewrite Hc. now apply IH.
Qed.

Lemma rstrip_trailing (s w : text) :
  all_chars isspace w = true -> rstrip (s ++ w)%list = rstrip s.
Proof.
  intros Hw. induction s as [|c s IH]; simpl.
  - now apply rstrip_all_space.
  - now rewrite IH.
Qed.

Lemma strip_trailing (s w : text) :
  all_chars isspace w = true -> strip (s ++ w)%list = strip s.
Proof.
  intros Hw. unfold strip. induction s as [|c s IH]; simpl.
  - now rewrite (lstrip_all_space w Hw).
  - destruct (isspace c); [exact IH|].
    exact (rstrip_trailing (c :: s) w Hw).
Qed.

(** White space before and after a time string does not change what the
    Time Parser returns: when the characters of [padded] are those of [s]
    between two runs of white space ([str.isspace], so the no-break spaces
    too), both strings give the same result. *)
Theorem parse_time_ignores_outer_space (padded s : string)
    (before after : text) :
  all_chars isspace before = true ->
  all_chars isspace after = true ->
  decode padded = (before ++ decode s ++ after)%list ->
  _parse_time_to_minutes (JStr padded) = _parse_time_to_minutes (JStr s).
Proof.
  intros Hb Ha Hp.
  assert (E : strip (decode padded) = strip (decode s)).
  { rewrite Hp. unfold strip at 1. rewrite (lstrip_leading before _ Hb).
    exact (strip_trailing (decode s) after Ha). }
  unfold _parse_time_to_minutes. now rewrite E.
Qed.

Lemma parse_time_ignores_outer_space_witness :
  _parse_time_to_minutes
    (JStr (encode ([160; 32] ++ decode "12:34" ++ [8239])%list))
  = Ok (Some 754, Some "12:34 PM").
Proof.
  rewrite (parse_time_ignores_outer_space
             (encode ([160; 32] ++ decode "12:34" ++ [8239])%list) "12:34"
             [160; 32] [8239]); reflexivity.
Defined.

(** The formatted component is the 12-hour text of the minutes
    component, for every input. *)
Theorem parse_time_formatted (v : value) (minutes : Z)
    (formatted : option string) :
  _parse_time_to_minutes v = Ok (Some minutes, formatted) ->
  formatted = Some (_format_minutes minutes).
Proof.
  destruct v as [| b | z | f | s | l | d]; simpl; try discriminate.
  - intros H. injection H as <- <-. reflexivity.
  - intros H. injection H as <- <-. reflexivity.
  - destruct (int_of_float f) as [m|e]; simpl; [|discriminate].
    intros H. injection H as <- <-. reflexivity.
  - case_strptime; [|discriminate].
    intros H. injection H as <- <-. reflexivity.
Qed.

Lemma parse_time_formatted_witness :
  _parse_time_to_minutes (JFloat (float_lit "605.9"))
  = Ok (Some 605, Some (_format_minutes 605)).
Proof.
  assert (E : _parse_time_to_minutes (JFloat (float_lit "605.9"))
              = Ok (Some 605, Some "10:05 AM")) by (vm_compute; reflexivity).
  pose proof (parse_time_formatted _ _ _ E) as F.
  rewrite E, F. reflexivity.
Defined.

(** ** Hours normalizer: what is emitted *)

Lemma normalize_section_shape (section out : value) :
  normalize_section section = Ok (Some out) -> is_section out = true.
Proof.
  destruct section as [| | | | | |sec]; try discriminate.
  unfold normalize_section. fold (start_raw_of sec). fold (end_raw_of sec).
  destruct (_parse_time_to_minutes (start_raw_of sec)) as [[sm sf]|x] eqn:S;
    simpl; [|discriminate].
  destruct (_parse_time_to_minutes (end_raw_of sec)) as [[em ef]|x] eqn:E;
    simpl; [|discriminate].
  destruct sm as [s|], em as [e|]; try discriminate.
  rewrite (parse_time_formatted _ _ _ S), (parse_time_formatted _ _ _ E).
  intros H. injection H as <-. simpl.
  unfold py_or.
  destruct (truthy (if truthy (get "sectionTitle" sec)
                    then get "sectionTitle" sec else get "label" sec)) eqn:T;
    [exact T | reflexivity].
Qed.

Lemma collect_forall {B : Type} (turn : B -> result (option value))
    (p : value -> bool) (l : list B) (kept : list value) :
  (forall b v, turn b = Ok (Some v) -> p v = true) ->
  collect turn l = Ok kept -> forallb p kept = true.
Proof.
  intros Hp H. apply forallb_forall. intros v Hv.
  destruct (collect_kept turn l kept H v Hv) as [b [_ Hb]].
  exact (Hp b v Hb).
Qed.

Lemma normalize_day_shape (entry : string * value) (out : value) :
  normalize_day entry = Ok (Some out) ->
  is_day out = true /\ day_range out = JStr (fst entry).
Proof.
  destruct entry as [day v]. intros H.
  apply normalize_day_emitted in H.
  destruct H as (sections & kept & -> & C & Hne & ->).
  split; [|reflexivity].
  pose proof (collect_forall normalize_section is_section sections kept
                normalize_section_shape C) as F.
  destruct kept as [|k kept]; [now elim Hne | exact F].
Qed.

(** Without a pre-normalized [hours] Array, every day returned has the
    shape [{"dayRange": <string>, "sectionHours": [...]}] with at least
    one section, and every section holds integer [startTime] and
    [endTime], a truthy [sectionTitle] and both formatted strings. *)
Theorem parse_hours_days_shape (node : value) (out : list value) :
  prenormalized (_find_first_key node "hours") = None ->
  parse_hours node = Ok out ->
  forallb is_day out = true.
Proof.
  intros Hpre. unfold parse_hours. rewrite Hpre.
  destruct (negb _); [intros H; now injection H as <-|].
  destruct (find_schedule node) as [| | | | | |days];
    try (intros H; now injection H as <-).
  apply collect_forall. intros b v Hb.
  now apply normalize_day_shape in Hb.
Qed.

Lemma parse_hours_days_shape_witness :
  forallb is_day
    [JObj [("dayRange", JStr "Monday");
           ("sectionHours",
            JArr [JObj [("startTime", JInt 540);
                        ("endTime", JInt 1020);
                        ("sectionTitle", JStr "Open");
                        ("startTimeFormatted", JStr "9:00 AM");
                        ("endTimeFormatted", JStr "5:00 PM")]])]] = true.
Proof.
  apply (parse_hours_days_shape
           (JObj [("schedule",
                   JObj [("Monday", JArr [JObj [("start", JStr "09:00");
                                                ("end", JStr "17:00")]])])]));
    vm_compute; reflexivity.
Defined.

Lemma subsequence_nil {A : Type} (l : list A) : subsequence [] l.
Proof. destruct l; exact I. Qed.

Lemma collect_subsequence {B : Type} (turn : B -> result (option value))
    (f : value -> value) (g : B -> value) (l : list B) (kept : list value) :
  (forall b v, turn b = Ok (Some v) -> f v = g b) ->
  collect turn l = Ok kept ->
  subsequence (map f kept) (map g l).
Proof.
  intros Hfg. revert kept.
  induction l as [|b l IH]; simpl; intros kept H.
  - injection H as <-. exact I.
  - destruct (turn b) as [o|e] eqn:E; simpl in H; [|discriminate].
    destruct (collect turn l) as [rest|e]; simpl in H; [|discriminate].
    injection H as <-. specialize (IH rest eq_refl).
    destruct o as [v|].
    + simpl. left. split; [exact (Hfg b v E) | exact IH].
    + destruct (map f rest) as [|x t] eqn:M; [exact I|]. now right.
Qed.

(** The days come out in the order of the keys of the schedule Object,
    each at most once per key: the [dayRange] values are the keys of the
    schedule with some left out. *)
Theorem parse_hours_days_order (node : value) (days : dict)
    (out : list value) :
  prenormalized (_find_first_key node "hours") = None ->
  find_schedule node = JObj days ->
  parse_hours node = Ok out ->
  subsequence (map day_range out) (map (fun kv => JStr (fst kv)) days).
Proof.
  intros Hpre Hs. unfold parse_hours. rewrite Hpre, Hs.
  destruct (negb _); [intros H; injection H as <-; apply subsequence_nil|].
  apply collect_subsequence. intros b v Hb.
  now apply normalize_day_shape in Hb.
Qed.

Lemma parse_hours_days_order_witness :
  let days := [("Monday", JArr [JObj [("start", JStr "closed")]]);
               ("Tuesday", JArr [JObj [("start", JStr "09:00");
                                       ("end", JStr "5:00 PM")]])] in
  exists out,
    parse_hours (JObj [("openingHours", JObj days)]) = Ok out
    /\ map day_range out = [JStr "Tuesday"]
    /\ subsequence (map day_range out) (map (fun kv => JStr (fst kv)) days).
Proof.
  intros days. eexists. split; [vm_compute; reflexivity|].
  split; [reflexivity|].
  apply (parse_hours_days_order (JObj [("openingHours", JObj days)]) days);
    vm_compute; reflexivity.
Defined.

Lemma is_day_is_dict (v : value) : is_day v = true -> is_dict v = true.
Proof. destruct v; try discriminate. reflexivity. Qed.

Lemma parse_hours_objects (node : value) (out : list value) :
  parse_hours node = Ok out -> forallb is_dict out = true.
Proof.
  destruct (prenormalized (_find_first_key node "hours")) as [items|] eqn:P.
  - unfold parse_hours. rewrite P. intros H. injection H as <-.
    unfold prenormalized in P.
    destruct (_find_first_key node "hours"); try discriminate.
    destruct (forallb is_dict items0) eqn:F; [|discriminate].
    now injection P as <-.
  - unfold parse_hours. rewrite P.
    destruct (negb _); [intros H; now injection H as <-|].
    destruct (find_schedule node) as [| | | | | |days];
      try (intros H; now injection H as <-).
    apply collect_forall. intros b v Hb.
    apply is_day_is_dict. now apply normalize_day_shape in Hb.
Qed.

(** The hours normalizer is idempotent through the [hours] key: what it
    returns, put under [hours] in an Object, is returned unchanged. *)
Theorem parse_hours_idempotent (node : value) (out : list value)
    (others : dict) :
  parse_hours node = Ok out ->
  parse_hours (JObj (("hours", JArr out) :: others)) = Ok out.
Proof.
  intros H. apply parse_hours_objects in H.
  unfold parse_hours, _find_first_key. simpl. now rewrite H.
Qed.

Lemma parse_hours_idempotent_witness :
  exists out,
    parse_hours
      (JObj [("schedule",
              JObj [("Monday", JArr [JObj [("start", JStr "09:00");
                                           ("end", JStr "17:00")]])])])
    = Ok out
    /\ parse_hours (JObj [("hours", JArr out); ("name", JStr "Test Diner")])
       = Ok out.
Proof.
  eexists. split; [vm_compute; reflexivity|].
  apply (parse_hours_idempotent
           (JObj [("schedule",
                   JObj [("Monday", JArr [JObj [("start", JStr "09:00");
                                                ("end", JStr "17:00")]])])])).
  vm_compute. reflexivity.
Defined.

(** A section that starts at minute 0 given as the number 0, with no
    [openTime], is dropped: [0 or None] is [None]. *)
Theorem normalize_section_zero_start (sec : dict) (em : option Z)
    (ef : option string) :
  get "start" sec = JInt 0 ->
  get "openTime" sec = JNull ->
  _parse_time_to_minutes (end_raw_of sec) = Ok (em, ef) ->
  normalize_section (JObj sec) = Ok None.
Proof.
  intros Hs Ho He.
  apply (normalize_section_omitted sec None em None ef); [|exact He|now left].
  unfold start_raw_of, py_or. rewrite Hs, Ho. reflexivity.
Qed.

Lemma normalize_section_zero_start_witness :
  normalize_section (JObj [("start", JInt 0); ("end", JStr "11:30")]) = Ok None.
Proof.
  apply (normalize_section_zero_start
           [("start", JInt 0); ("end", JStr "11:30")] (Some 690)
           (Some "11:30 AM")); vm_compute; reflexivity.
Defined.

(** ** Settings ([load_settings]) *)

Lemma lookup_dict_set_same (k : string) (v : value) (d : dict) :
  lookup k (dict_set k v d) = Some v.
Proof.
  induction d as [|[k' v'] d IH]; simpl.
  - now rewrite String.eqb_refl.
  - destruct (k' =? k)%string eqn:E; simpl.
    + now rewrite String.eqb_refl.
    + now rewrite E.
Qed.

Lemma lookup_dict_set_other (k k' : string) (v : value) (d : dict) :
  k <> k' -> lookup k (dict_set k' v d) = lookup k d.
Proof.
  intros Hk. induction d as [|[k0 v0] d IH]; simpl.
  - destruct (k' =? k)%string eqn:E; [|reflexivity].
    apply String.eqb_eq in E. congruence.
  - destruct (k0 =? k')%string eqn:E0; simpl.
    + apply String.eqb_eq in E0. subst k0.
      destruct (k' =? k)%string eqn:E; [|reflexivity].
      apply String.eqb_eq in E. congruence.
    + now rewrite IH.
Qed.

Lemma lookup_not_in (k : string) (d : dict) :
  ~ In k (map fst d) -> lookup k d = None.
Proof.
  induction d as [|[k' v'] d IH]; simpl; [reflexivity|].
  intros H. destruct (k' =? k)%string eqn:E.
  - apply String.eqb_eq in E. tauto.
  - apply IH. tauto.
Qed.

(** [{**a, **b}] read back: a key of [b] has the value [b] gives it, any
    other key keeps the value of [a]. *)
Theorem dict_update_lookup (a b : dict) (k : string) :
  NoDup (map fst b) ->
  lookup k (dict_update a b) =
  match lookup k b with Some v => Some v | None => lookup k a end.
Proof.
  unfold dict_update. revert a.
  induction b as [|[k' v'] b IH]; simpl; intros a Hnd; [reflexivity|].
  inversion Hnd as [|? ? Hnotin Hnd']; subst.
  rewrite (IH _ Hnd').
  destruct (k' =? k)%string eqn:E.
  - apply String.eqb_eq in E. subst k'.
    now rewrite (lookup_not_in k b Hnotin), lookup_dict_set_same.
  - destruct (lookup k b); [reflexivity|].
    apply lookup_dict_set_other. intros ->. now rewrite String.eqb_refl in E.
Qed.

Lemma dict_update_lookup_witness :
  lookup "backoffSeconds"
    (dict_update [("maxAttempts", JInt 3); ("backoffSeconds", JInt 2)]
       [("maxAttempts", JInt 5)]) = Some (JInt 2).
Proof.
  rewrite dict_update_lookup; [reflexivity|].
  repeat constructor. intros [].
Defined.

Lemma merge_entry_lookup (merged : dict) (key : string) (v : value)
    (k : string) :
  lookup k (merge_entry merged (key, v)) =
  if (key =? k)%string then Some (merged_value (lookup key merged) v)
  else lookup k merged.
Proof.
  assert (E : merge_entry merged (key, v)
              = dict_set key (merged_value (lookup key merged) v) merged).
  { unfold merge_entry, merged_value.
    destruct v; try reflexivity.
    destruct (lookup key merged) as [[| | | | | |md]|]; reflexivity. }
  rewrite E. destruct (key =? k)%string eqn:Ek.
  - apply String.eqb_eq in Ek. subst. apply lookup_dict_set_same.
  - apply lookup_dict_set_other. intros ->. now rewrite String.eqb_refl in Ek.
Qed.

(** The merged settings read back, for a settings file with distinct
    keys: a key the file does not mention keeps its default; a key the
    file gives an Object for, where the default is an Object too, holds
    the default Object updated by the file's; any other key of the file
    holds the file's value. *)
Theorem merge_settings_lookup (defaults user_settings : dict) (k : string) :
  NoDup (map fst user_settings) ->
  lookup k (merge_settings defaults user_settings) =
  match lookup k user_settings with
  | None => lookup k defaults
  | Some v => Some (merged_value (lookup k defaults) v)
  end.
Proof.
  unfold merge_settings. revert defaults.
  induction user_settings as [|[key v] user IH];
    cbn [fold_left map fst lookup]; intros defaults Hnd; [reflexivity|].
  inversion Hnd as [|? ? Hnotin Hnd']; subst.
  rewrite (IH _ Hnd'), merge_entry_lookup.
  destruct (key =? k)%string eqn:E.
  - apply String.eqb_eq in E. subst key.
    now rewrite (lookup_not_in k user Hnotin).
  - reflexivity.
Qed.

Lemma merge_settings_lookup_witness :
  lookup "retry"
    (load_settings (Some (JObj [("retry", JObj [("maxAttempts", JInt 5)]);
                                ("concurrency", JInt 1)])))
  = Some (JObj [("maxAttempts", JInt 5); ("backoffSeconds", JInt 2)]).
Proof.
  unfold load_settings. rewrite merge_settings_lookup; [reflexivity|].
  repeat constructor; simpl; intuition discriminate.
Defined.

Lemma merge_entry_keeps_keys (merged : dict) (entry : string * value)
    (k : string) :
  has_key k merged = true -> has_key k (merge_entry merged entry) = true.
Proof.
  destruct entry as [key v]. unfold has_key.
  rewrite merge_entry_lookup.
  destruct (key =? k)%string; [reflexivity | auto].
Qed.

(** Whatever the settings file holds, every key of the default settings
    is present in the settings [load_settings] returns. *)
Theorem load_settings_keeps_defaults (file : option value) (k : string) :
  has_key k DEFAULT_SETTINGS = true ->
  has_key k (load_settings file) = true.
Proof.
  intros Hk.
  destruct file as [[| | | | | |user]|]; try exact Hk.
  unfold load_settings, merge_settings.
  revert Hk. generalize DEFAULT_SETTINGS as d.
  induction user as [|entry user IH]; simpl; intros d Hk; [exact Hk|].
  apply IH. now apply merge_entry_keeps_keys.
Qed.

Lemma load_settings_keeps_defaults_witness :
  has_key "logLevel"
    (load_settings (Some (JObj [("output", JStr "out.json")]))) = true.
Proof.
  apply load_settings_keeps_defaults. reflexivity.
Defined.

(** A file that sets [output] or [retry] to something that is not an
    Object replaces the default Object as a whole. *)
Example load_settings_replaces_object :
  lookup "output" (load_settings (Some (JObj [("output", JStr "out.json")])))
  = Some (JStr "out.json").
Proof. reflexivity. Qed.

(** ** Input list and jobs ([load_input_urls], the loop of [main]) *)

(** For an input file that holds an Array, [load_input_urls] returns
    without an exception, and of the entries it returns the loop of [main]
    makes these jobs: a URL given as a string gets the default menu flag; an
    Object with a [url] and a [scrapeMenu] key gets the truth value of its
    own [scrapeMenu], whatever the default; an Object with a [url] and no
    [scrapeMenu] gets the default. *)
Theorem load_input_urls_flags (items : list value)
    (include_menu_default : bool) :
  exists urls,
    load_input_urls (JArr items) include_menu_default = Ok urls
    /\ (forall u, In (JStr u) items ->
          In (JStr u, include_menu_default)
             (scrape_jobs urls include_menu_default))
    /\ (forall d v, In (JObj d) items -> has_key "url" d = true ->
          lookup "scrapeMenu" d = Some v ->
          In (get "url" d, truthy v) (scrape_jobs urls include_menu_default))
    /\ (forall d, In (JObj d) items -> has_key "url" d = true ->
          lookup "scrapeMenu" d = None ->
          In (get "url" d, include_menu_default)
             (scrape_jobs urls include_menu_default)).
Proof.
  set (dflt := include_menu_default).
  eexists. split; [reflexivity|].
  unfold scrape_jobs.
  split; [|split].
  - intros u Hu. apply in_flat_map.
    exists (JObj [("url", JStr u); ("scrapeMenu", JBool dflt)]). split.
    + apply in_flat_map. exists (JStr u). split; [exact Hu | now left].
    + left. unfold get_or. simpl. now destruct dflt.
  - intros d v Hd Hurl Hv. apply in_flat_map.
    exists (JObj [("url", get "url" d); ("scrapeMenu", JBool (truthy v))]).
    split.
    + apply in_flat_map. exists (JObj d). split; [exact Hd|].
      rewrite Hurl. unfold get_or. rewrite Hv. now left.
    + left. unfold get_or. simpl. now destruct (truthy v).
  - intros d Hd Hurl Hv. apply in_flat_map.
    exists (JObj [("url", get "url" d); ("scrapeMenu", JBool dflt)]).
    split.
    + apply in_flat_map. exists (JObj d). split; [exact Hd|].
      rewrite Hurl. unfold get_or. rewrite Hv. simpl. now left.
    + left. unfold get_or. simpl. now destruct dflt.
Qed.

(** With the default off, an entry that asks for its menu is still scraped
    with the menu, and a plain URL is not; entries without a [url] and
    entries that are neither strings nor Objects are left out. *)
Example load_input_urls_default_off :
  (urls <- load_input_urls
             (JArr [JStr "https://example.test/a";
                    JObj [("url", JStr "https://example.test/b");
                          ("scrapeMenu", JBool true)];
                    JObj [("name", JStr "no url")];
                    JInt 7]) false ;;
   Ok (scrape_jobs urls false))
  = Ok [(JStr "https://example.test/a", false);
        (JStr "https://example.test/b", true)].
Proof. reflexivity. Qed.

(** An explicit [scrapeMenu] of null counts as false, not as the
    default. *)
Example load_input_urls_null_flag :
  load_input_urls
    (JArr [JObj [("url", JStr "https://example.test/c");
                 ("scrapeMenu", JNull)]]) true
  = Ok [JObj [("url", JStr "https://example.test/c");
              ("scrapeMenu", JBool false)]].
Proof. reflexivity. Qed.

(** An input file that does not hold an Array raises. *)
Example load_input_urls_object :
  load_input_urls (JObj [("url", JStr "https://example.test/a")]) true
  = Raise ValueError.
Proof. reflexivity. Qed.

(** ** Fetching with retries *)

Lemma requests_cons_request (attempt : Z) (events : list fetch_event) :
  requests (Request attempt :: events) = requests events + 1.
Proof. unfold requests. simpl filter. simpl List.length. lia. Qed.

Lemma requests_cons_sleep (seconds : spec_float) (events : list fetch_event) :
  requests (Sleep seconds :: events) = requests events.
Proof. reflexivity. Qed.

Lemma sleeps_cons_request (attempt : Z) (events : list fetch_event) :
  sleeps (Request attempt :: events) = sleeps events.
Proof. reflexivity. Qed.

Lemma sleeps_cons_sleep (seconds : spec_float) (events : list fetch_event) :
  sleeps (Sleep seconds :: events) = sleeps events + 1.
Proof. unfold sleeps. simpl filter. simpl List.length. lia. Qed.

Lemma fetch_loop_trace (time_sleep : spec_float -> result unit)
    (get_text : Z -> option string) (max_attempts : Z)
    (backoff_seconds : spec_float) (remaining : nat) (attempt : Z) :
  attempt + Z.of_nat remaining = max_attempts + 1 ->
  let '(res, events) :=
    fetch_loop time_sleep get_text max_attempts backoff_seconds
      attempt remaining in
  (remaining = O -> res = Ok None /\ events = [])
  /\ match res with
     | Ok (Some text) =>
         exists i, attempt <= i <= max_attempts
                   /\ get_text i = Some text
                   /\ (forall j, attempt <= j < i -> get_text j = None)
                   /\ requests events = i - attempt + 1
                   /\ sleeps events = i - attempt
                   /\ (i = attempt \/ time_sleep backoff_seconds = Ok tt)
     | Ok None =>
         (forall j, attempt <= j <= max_attempts -> get_text j = None)
         /\ requests events = Z.of_nat remaining
         /\ sleeps events = Z.max 0 (Z.of_nat remaining - 1)
         /\ (max_attempts <= attempt \/ time_sleep backoff_seconds = Ok tt)
     | Raise e =>
         time_sleep backoff_seconds = Raise e
         /\ get_text attempt = None
         /\ attempt < max_attempts
         /\ events = [Request attempt; Sleep backoff_seconds]
     end.
Proof.
  revert attempt.
  induction remaining as [|r IH]; intros attempt Hinv.
  - simpl. split; [auto|]. split; [intros j Hj; lia|].
    split; [reflexivity|]. split; [reflexivity|]. left. lia.
  - cbn [fetch_loop]. destruct (get_text attempt) as [text|] eqn:G.
    + split; [discriminate|].
      exists attempt. split; [lia|]. split; [exact G|].
      split; [intros j Hj; lia|].
      split; [unfold requests; simpl; lia|].
      split; [unfold sleeps; simpl; lia|]. now left.
    + specialize (IH (attempt + 1) ltac:(lia)).
      destruct (attempt <? max_attempts) eqn:L.
      * apply Z.ltb_lt in L.
        destruct (time_sleep backoff_seconds) as [[]|e] eqn:T.
        -- destruct (fetch_loop time_sleep get_text max_attempts
                       backoff_seconds (attempt + 1) r) as [res events].
           destruct IH as (_ & Hres).
           split; [discriminate|].
           rewrite requests_cons_request, requests_cons_sleep,
             sleeps_cons_request, sleeps_cons_sleep.
           destruct res as [[text|]|e].
           ++ destruct Hres as (i & Hi & Hg & Hbefore & Hreq & Hsl & _).
              exists i. split; [lia|]. split; [exact Hg|].
              split.
              { intros j Hj. destruct (Z.eq_dec j attempt) as [->|Hne];
                  [exact G | apply Hbefore; lia]. }
              split; [lia|]. split; [lia|]. now right.
           ++ destruct Hres as (Hall & Hreq & Hsl & _).
              split.
              { intros j Hj. destruct (Z.eq_dec j attempt) as [->|Hne];
                  [exact G | apply Hall; lia]. }
              split; [lia|]. split; [lia|]. now right.
           ++ destruct Hres as (Hraise & _). congruence.
        -- split; [discriminate|].
           split; [reflexivity|]. split; [reflexivity|].
           split; [lia|reflexivity].
      * apply Z.ltb_ge in L.
        assert (r = O) by lia. subst r.
        destruct (fetch_loop time_sleep get_text max_attempts
                    backoff_seconds (attempt + 1) 0) as [res events].
        destruct IH as (Hnil & _).
        destruct (Hnil eq_refl) as [-> ->].
        split; [discriminate|].
        split.
        { intros j Hj. replace j with attempt by lia. exact G. }
        split; [reflexivity|]. split; [reflexivity|]. left. lia.
Qed.

(** Whatever the network and [time.sleep] do, the retry loop sends at most
    [max_attempts] requests, none when [max_attempts] is not positive, and
    never sleeps more often than it sends a request.  When it returns it
    has slept between two requests only: one sleep less than requests.  It
    raises only what [time.sleep] raises for the configured back-off, and
    then after exactly one request and the one refused sleep. *)
Theorem fetch_with_retries_bounded (time_sleep : spec_float -> result unit)
    (get_text : Z -> option string) (max_attempts : Z)
    (backoff_seconds : spec_float) :
  let '(res, events) :=
    _fetch_with_retries time_sleep get_text max_attempts backoff_seconds in
  requests events <= Z.max 0 max_attempts
  /\ sleeps events <= requests events
  /\ (max_attempts <= 0 -> res = Ok None /\ events = [])
  /\ (returns res = true -> 0 < max_attempts ->
      sleeps events = requests events - 1)
  /\ (forall e, res = Raise e ->
        time_sleep backoff_seconds = Raise e
        /\ events = [Request 1; Sleep backoff_seconds]).
Proof.
  unfold _fetch_with_retries.
  destruct (Z_lt_le_dec 0 max_attempts) as [Hpos|Hneg].
  - pose proof (fetch_loop_trace time_sleep get_text max_attempts
                  backoff_seconds (Z.to_nat max_attempts) 1 ltac:(lia)) as T.
    destruct (fetch_loop time_sleep get_text max_attempts backoff_seconds 1
                (Z.to_nat max_attempts)) as [res events].
    destruct T as (_ & Hres).
    destruct res as [[text|]|e].
    + destruct Hres as (i & Hi & _ & _ & Hreq & Hsl & _).
      split; [lia|]. split; [lia|]. split; [intros; lia|].
      split; [intros _ _; lia | discriminate].
    + destruct Hres as (_ & Hreq & Hsl & _).
      split; [lia|]. split; [lia|]. split; [intros; lia|].
      split; [intros _ _; lia | discriminate].
    + destruct Hres as (Hraise & _ & Hlt & ->).
      split; [unfold requests; simpl; lia|].
      split; [unfold requests, sleeps; simpl; lia|].
      split; [intros; lia|]. split; [discriminate|].
      intros e' E. injection E as <-. auto.
  - replace (Z.to_nat max_attempts) with O by lia. simpl.
    split; [unfold requests; simpl; lia|].
    split; [unfold requests, sleeps; simpl; lia|].
    split; [auto|]. split; [intros; lia | discriminate].
Qed.

(** What the retry loop does, by its outcome.  It returns a text exactly
    when that is the text of the first attempt that succeeds, an attempt no
    later than [max_attempts], after exactly that many requests; and unless
    that is the first attempt, [time.sleep] accepted the back-off.  It
    returns [None] exactly when every attempt up to [max_attempts] fails,
    after [max_attempts] requests (none when [max_attempts] is not
    positive); and unless [max_attempts] is at most 1, [time.sleep] accepted
    the back-off.  It raises exactly when the first attempt fails, another
    attempt is left and [time.sleep] refuses the back-off: no second request
    is sent. *)
Theorem fetch_with_retries_first_success
    (time_sleep : spec_float -> result unit)
    (get_text : Z -> option string) (max_attempts : Z)
    (backoff_seconds : spec_float) :
  match
    _fetch_with_retries time_sleep get_text max_attempts backoff_seconds
  with
  | (Ok (Some text), events) =>
      exists i, 1 <= i <= max_attempts
                /\ get_text i = Some text
                /\ (forall j, 1 <= j < i -> get_text j = None)
                /\ requests events = i
                /\ (i = 1 \/ time_sleep backoff_seconds = Ok tt)
  | (Ok None, events) =>
      (forall j, 1 <= j <= max_attempts -> get_text j = None)
      /\ requests events = Z.max 0 max_attempts
      /\ (max_attempts <= 1 \/ time_sleep backoff_seconds = Ok tt)
  | (Raise e, events) =>
      time_sleep backoff_seconds = Raise e
      /\ get_text 1 = None
      /\ 1 < max_attempts
      /\ events = [Request 1; Sleep backoff_seconds]
  end.
Proof.
  unfold _fetch_with_retries.
  destruct (Z_lt_le_dec 0 max_attempts) as [Hpos|Hneg].
  - pose proof (fetch_loop_trace time_sleep get_text max_attempts
                  backoff_seconds (Z.to_nat max_attempts) 1 ltac:(lia)) as T.
    destruct (fetch_loop time_sleep get_text max_attempts backoff_seconds 1
                (Z.to_nat max_attempts)) as [[[text|]|e] events].
    + destruct T as (_ & i & Hi & Hg & Hb & Hr & _ & Hs).
      exists i. split; [lia|]. split; [exact Hg|]. split; [exact Hb|].
      split; [lia | exact Hs].
    + destruct T as (_ & Hall & Hn & _ & Hs).
      split; [exact Hall|]. split; [lia | exact Hs].
    + destruct T as (_ & T). exact T.
  - replace (Z.to_nat max_attempts) with O by lia. simpl.
    split; [intros j Hj; lia|].
    split; [unfold requests; simpl; lia | left; lia].
Qed.

Example fetch_with_retries_third :
  _fetch_with_retries sample_sleep
    (fun attempt => if attempt =? 3 then Some "<html></html>" else None) 3
    (float_lit "2.0")
  = (Ok (Some "<html></html>"),
     [Request 1; Sleep (float_lit "2.0"); Request 2; Sleep (float_lit "2.0");
      Request 3]).
Proof. vm_compute. reflexivity. Qed.

Example fetch_with_retries_exhausted :
  _fetch_with_retries sample_sleep (fun _ => None) 3 (float_lit "2.0")
  = (Ok None,
     [Request 1; Sleep (float_lit "2.0"); Request 2; Sleep (float_lit "2.0");
      Request 3]).
Proof. vm_compute. reflexivity. Qed.

(** With a negative back-off the first failure ends the function with the
    exception of [time.sleep]: the second attempt, which would succeed, is
    never made. *)
Example fetch_with_retries_negative_backoff :
  _fetch_with_retries sample_sleep
    (fun attempt => if attempt =? 2 then Some "<html></html>" else None) 3
    (SFopp (float_lit "2.0"))
  = (Raise ValueError, [Request 1; Sleep (SFopp (float_lit "2.0"))]).
Proof. vm_compute. reflexivity. Qed.

(** ** Settings: nested Objects *)

(** For a settings file with distinct keys that gives an Object (with
    distinct keys) under a key whose default is an Object, the merged
    value under that key is an Object in which each nested key holds the
    file's value when the file has it and the default value otherwise. *)
Theorem merge_settings_nested (defaults user_settings : dict) (k : string)
    (vd md : dict) :
  NoDup (map fst user_settings) ->
  NoDup (map fst vd) ->
  lookup k user_settings = Some (JObj vd) ->
  lookup k defaults = Some (JObj md) ->
  exists m,
    lookup k (merge_settings defaults user_settings) = Some (JObj m)
    /\ forall j, lookup j m =
                 match lookup j vd with
                 | Some x => Some x
                 | None => lookup j md
                 end.
Proof.
  intros Hu Hv Hk Hd. exists (dict_update md vd). split.
  - now rewrite (merge_settings_lookup _ _ k Hu), Hk, Hd.
  - intros j. now apply dict_update_lookup.
Qed.

Lemma merge_settings_nested_witness :
  exists m,
    lookup "output"
      (load_settings (Some (JObj [("output", JObj [("filename", JStr "x.json")])])))
    = Some (JObj m)
    /\ lookup "filename" m = Some (JStr "x.json")
    /\ lookup "directory" m = Some (JStr "data").
Proof.
  destruct (merge_settings_nested DEFAULT_SETTINGS
              [("output", JObj [("filename", JStr "x.json")])] "output"
              [("filename", JStr "x.json")]
              [("directory", JStr "data");
               ("filename", JStr "restaurants_output.json")])
    as (m & Hm & Hj).
  - repeat constructor. intros [].
  - repeat constructor. intros [].
  - reflexivity.
  - reflexivity.
  - exists m. split; [exact Hm|].
    split; [rewrite Hj | rewrite Hj]; reflexivity.
Defined.

(** ** Witnesses of earlier statements *)

Lemma parse_hours_raises_only_on_non_finite_witness :
  returns (parse_hours infinite_start_payload) = false.
Proof.
  apply (proj2 (parse_hours_raises_only_on_non_finite infinite_start_payload)).
  split; [reflexivity|].
  exists [("Monday",
           JArr [JObj [("start", JFloat (S754_infinity false));
                       ("end", JStr "17:00")]])],
         "Monday",
         [JObj [("start", JFloat (S754_infinity false)); ("end", JStr "17:00")]],
         [("start", JFloat (S754_infinity false)); ("end", JStr "17:00")].
  split; [reflexivity|]. split; [now left|]. split; [now left|].
  left. reflexivity.
Defined.

Lemma parse_time_string_range_at_noon :
  _parse_time_to_minutes (JStr "12:30 pm") = Ok (Some 750, Some "12:30 PM")
  /\ 0 <= 750 <= 1439.
Proof.
  assert (E : _parse_time_to_minutes (JStr "12:30 pm")
              = Ok (Some 750, Some "12:30 PM")) by (vm_compute; reflexivity).
  split; [exact E|].
  exact (parse_time_string_range "12:30 pm" 750 (Some "12:30 PM") E).
Defined.

(** ** Location normalizer: the record and its source *)

(** The record depends on the first Object, in depth-first pre-order,
    that passes the guard of the walk ([latitude] and [longitude] present
    with [int], [float] or [bool] values) and on nothing else in the tree:
    it is the record of that Object alone, with its latitude and longitude;
    without such an Object it is all null with [locationType]
    ["DEFAULT"]. *)
Theorem parse_location_of_candidate (node : value) :
  match find has_coordinates (objects_preorder node) with
  | Some o =>
      parse_location node = parse_location (JObj o)
      /\ latitude (parse_location node) = get "latitude" o
      /\ longitude (parse_location node) = get "longitude" o
      /\ latitude (parse_location node) <> JNull
      /\ longitude (parse_location node) <> JNull
  | None => parse_location node = default_location
  end.
Proof.
  unfold parse_location. rewrite location_walk_first.
  destruct (find has_coordinates (objects_preorder node)) as [o|] eqn:E;
    [|reflexivity].
  apply find_some in E. destruct E as [_ E].
  simpl location_walk. rewrite E. cbv iota.
  unfold has_coordinates in E.
  repeat (apply andb_true_iff in E; destruct E as [E ?]).
  repeat split; simpl; now apply is_int_or_float_not_none.
Qed.

Lemma py_or_default_truthy (v d : value) :
  truthy d = true -> truthy (py_or v d) = true.
Proof. intros Hd. unfold py_or. now destruct (truthy v) eqn:T. Qed.

(** [locationType] always holds a truthy value. *)
Lemma parse_location_type_truthy (node : value) :
  truthy (locationType (parse_location node)) = true.
Proof. apply py_or_default_truthy. reflexivity. Qed.

(** ** Settings: keys of the file *)

(** For a settings file that holds an Object with distinct keys: a key
    the file does not mention keeps its default, and a key the file gives a
    value that is not an Object holds that value, whatever the default
    was. *)
Theorem load_settings_override (user_settings : dict) (k : string) :
  NoDup (map fst user_settings) ->
  (lookup k user_settings = None ->
   lookup k (load_settings (Some (JObj user_settings)))
   = lookup k DEFAULT_SETTINGS)
  /\ (forall v, lookup k user_settings = Some v -> is_dict v = false ->
        lookup k (load_settings (Some (JObj user_settings))) = Some v).
Proof.
  intros Hnd. unfold load_settings.
  rewrite (merge_settings_lookup DEFAULT_SETTINGS user_settings k Hnd).
  split.
  - intros H. now rewrite H.
  - intros v H Hv. rewrite H. destruct v; try reflexivity. discriminate.
Qed.

Lemma load_settings_override_witness :
  lookup "concurrency"
    (load_settings (Some (JObj [("concurrency", JInt 1); ("retry", JInt 0)])))
  = Some (JInt 1)
  /\ lookup "retry"
       (load_settings (Some (JObj [("concurrency", JInt 1); ("retry", JInt 0)])))
     = Some (JInt 0)
  /\ lookup "logLevel"
       (load_settings (Some (JObj [("concurrency", JInt 1); ("retry", JInt 0)])))
     = Some (JStr "INFO").
Proof.
  assert (Hnd : NoDup (map fst [("concurrency", JInt 1); ("retry", JInt 0)])).
  { repeat constructor; simpl; intuition discriminate. }
  split; [|split].
  - apply (proj2 (load_settings_override _ "concurrency" Hnd)); reflexivity.
  - apply (proj2 (load_settings_override _ "retry" Hnd)); reflexivity.
  - apply (proj1 (load_settings_override _ "logLevel" Hnd)). reflexivity.
Defined.
